(** * papis: documents, key conversion, sorting and the update pipeline

    A shallow embedding of [papis/document.py] and of
    [papis/commands/update.py], and the properties of the specification
    that are settled against it.

    Conventions of the embedding:
    - a Python [dict] with string keys is a [gmap string value]; the
      insertion order of a dict is not observable through any of the
      operations modelled here ([dump] sorts its items);
    - a Python [str] is a [string] (code points below 256);
    - an [int] is a [Z];
    - code that can raise returns an [outcome];
    - calls to the logger append [log_record]s to a list that the
      function returns next to its result;
    - functions of other modules whose source is not part of the
      development ([papis.config], [papis.yaml], [papis.format],
      [papis.api], [papis.git], [papis.commands.doctor]) and functions of
      the Python library with a large behaviour ([datetime.strptime],
      [str.format]) are Section variables. *)

From Stdlib Require Import ZArith String Ascii List Sorted Permutation
  DecimalString DecimalPos.
From stdpp Require Import base option list sorting gmap strings.

Local Open Scope string_scope.
Local Open Scope list_scope.
Local Open Scope Z_scope.
Local Set Warnings "-register-all".

(** ** Exceptions and outcomes *)

(** The exception classes (all subclasses of [Exception]) that occur in
    the modelled code; [OtherException] stands for any further class,
    e.g. one raised by a conversion action. *)
Inductive exn : Type :=
  | ValueError (msg : string)
  | TypeError (msg : string)
  | KeyError (key : string)
  | ConfigurationError (msg : string)      (* the bare [Exception(...)] of [author_list_to_author] *)
  | DocumentFolderNotFound (descr : string)
  | OtherException (name : string).

Inductive outcome (A : Type) : Type :=
  | Returned (a : A)
  | Raised (e : exn).
Arguments Returned {A} a.
Arguments Raised {A} e.

Definition bind {A B} (m : outcome A) (f : A -> outcome B) : outcome B :=
  match m with
  | Returned a => f a
  | Raised e => Raised e
  end.

#[global] Instance outcome_bind : MBind outcome := fun A B f m => bind m f.
#[global] Instance outcome_ret : MRet outcome := fun A a => Returned a.

(** [comprehension f l]: a list comprehension [[f(x) for x in l]] whose
    body can raise; the first exception aborts the comprehension. *)
Fixpoint comprehension {A B} (f : A -> outcome B) (l : list A) : outcome (list B) :=
  match l with
  | [] => Returned []
  | x :: l' => y ← f x; ys ← comprehension f l'; Returned (y :: ys)
  end.

(** ** Logging *)

Inductive log_level : Type := DEBUG | INFO | WARNING | ERROR.

(** One call [logger.<level>(fmt, *args, exc_info=...)]. *)
Record log_record : Type := LogRecord {
  level : log_level;
  fmt : string;
  args : list string;
  exc_info : option exn
}.

(** ** Values *)

(** The values stored in a document or in foreign data: [None],
    booleans, integers, strings, lists, and string-keyed mappings (the
    author records [{"given": ..., "family": ...}]). Floats are outside
    the model. *)
Inductive value : Type :=
  | VNone
  | VBool (b : bool)
  | VInt (z : Z)
  | VStr (s : string)
  | VList (l : list value)
  | VDict (d : list (string * value)).

(** [bool(v)]: the truth value of [v]. *)
Definition truthy (v : value) : bool :=
  match v with
  | VNone => false
  | VBool b => b
  | VInt z => negb (z =? 0)
  | VStr s => negb (String.eqb s "")
  | VList l => match l with [] => false | _ => true end
  | VDict d => match d with [] => false | _ => true end
  end.

Definition is_str (v : value) : bool :=
  match v with VStr _ => true | _ => false end.

(** *** Characters and strings *)

(** [str.isspace] on code points below 256. *)
Definition py_isspace (c : ascii) : bool :=
  let n := N_of_ascii c in
  ((9 <=? n) && (n <=? 13) || (28 <=? n) && (n <=? 32)
   || (n =? 133) || (n =? 160))%N.

Fixpoint lstrip (s : string) : string :=
  match s with
  | String c s' => if py_isspace c then lstrip s' else s
  | EmptyString => EmptyString
  end.

(** [s.strip()] *)
Definition strip (s : string) : string :=
  String.rev (lstrip (String.rev (lstrip s))).

(** [sep.join(l)] *)
Definition join (sep : string) (l : list string) : string :=
  String.concat sep l.

(** [str(z)] for an integer. *)
Definition str_of_Z (z : Z) : string :=
  NilZero.string_of_int (Z.to_int z).

Definition backslash : ascii := ascii_of_N 92.
Definition dquote : ascii := ascii_of_N 34.
Definition squote : ascii := ascii_of_N 39.

Definition hex_digit (n : N) : ascii :=
  ascii_of_N (if (n <? 10)%N then 48 + n else 87 + n)%N.

(** [repr(s)] for a string: single quotes unless the string holds a
    single quote and no double quote; backslash, the quote and
    non-printable code points are escaped. *)
Fixpoint contains_char (c : ascii) (s : string) : bool :=
  match s with
  | EmptyString => false
  | String d s' => Ascii.eqb c d || contains_char c s'
  end.

Definition repr_char (quote c : ascii) : string :=
  let n := N_of_ascii c in
  if Ascii.eqb c quote || (n =? 92)%N then String backslash (String c "")
  else if (n =? 9)%N then String backslash "t"
  else if (n =? 10)%N then String backslash "n"
  else if (n =? 13)%N then String backslash "r"
  else if ((n <? 32) || (127 <=? n) && (n <=? 160) || (n =? 173))%N then
    String backslash
      (String "x" (String (hex_digit (n / 16)) (String (hex_digit (n mod 16)) "")))
  else String c "".

Fixpoint repr_chars (quote : ascii) (s : string) : string :=
  match s with
  | EmptyString => EmptyString
  | String c s' => repr_char quote c +:+ repr_chars quote s'
  end.

Definition repr_str (s : string) : string :=
  let quote : ascii :=
    if contains_char squote s && negb (contains_char dquote s) then dquote else squote in
  String quote (repr_chars quote s +:+ String quote "").

(** [repr(v)]: containers show the [repr] of their items. *)
Fixpoint repr (v : value) : string :=
  match v with
  | VNone => "None"
  | VBool true => "True"
  | VBool false => "False"
  | VInt z => str_of_Z z
  | VStr s => repr_str s
  | VList l => "[" +:+ join ", " (map repr l) +:+ "]"
  | VDict d =>
      "{" +:+ join ", " (map (fun kv => repr_str (fst kv) +:+ ": " +:+ repr (snd kv)) d) +:+ "}"
  end.

(** [str(v)], which is also ["{}".format(v)]. *)
Definition str (v : value) : string :=
  match v with
  | VStr s => s
  | _ => repr v
  end.

(** ** Built-ins: [sorted], [dict.update], [os.path.join] *)

(** [sorted(l, key=..., reverse=...)]. Python's sort is stable and
    compares with [<] only; [lt a b] is [key(a) < key(b)]. With
    [reverse=True] the list is reversed, sorted, and the result is
    reversed again (so equal items keep their input order). The stable
    ascending sort is written as an insertion sort. *)
Section Sorted.
Context {A : Type} (lt : A -> A -> bool).

Fixpoint insert_sorted (x : A) (l : list A) : list A :=
  match l with
  | [] => [x]
  | y :: l' => if lt y x then y :: insert_sorted x l' else x :: l
  end.

Fixpoint stable_sort (l : list A) : list A :=
  match l with
  | [] => []
  | x :: l' => insert_sorted x (stable_sort l')
  end.

Definition sorted (reverse : bool) (l : list A) : list A :=
  if reverse then rev (stable_sort (rev l)) else stable_sort l.
End Sorted.

(** [d.update(other)]: the entries of [other] win. *)
Definition update (d other : gmap string value) : gmap string value :=
  other ∪ d.

Fixpoint endswith_sep (s : string) : bool :=
  match s with
  | EmptyString => false
  | String c EmptyString => Ascii.eqb c "/"
  | String _ s' => endswith_sep s'
  end.

Definition startswith_sep (s : string) : bool :=
  match s with
  | String c _ => Ascii.eqb c "/"
  | EmptyString => false
  end.

(** [os.path.join(a, b)] on a POSIX system, for two strings. *)
Definition path_join (a b : string) : string :=
  if startswith_sep b then b
  else if String.eqb a EmptyString || endswith_sep a then a +:+ b
  else a +:+ "/" +:+ b.

(** [os.path.join(a, v)] for a dict value [v]: anything but a string
    raises [TypeError]. *)
Definition os_path_join (a : string) (v : value) : outcome string :=
  match v with
  | VStr b => Returned (path_join a b)
  | _ => Raised (TypeError "expected str, bytes or os.PathLike object")
  end.

(** ** [class Document(Dict[str, Any])] *)

(** The dict part is [fields]; the other three are the attributes. *)
Record Document : Type := mkDocument {
  fields : gmap string value;
  _folder : option string;
  _info_file_path : string;
  subfolder : string
}.

Definition with_fields (doc : Document) (f : gmap string value) : Document :=
  {| fields := f; _folder := _folder doc;
     _info_file_path := _info_file_path doc; subfolder := subfolder doc |}.

(** [Document(data=data)], which is [from_data(data)]: no folder, the
    class defaults for the path attributes, then [self.update(data)]. *)
Definition from_data (data : gmap string value) : Document :=
  {| fields := update ∅ data; _folder := None;
     _info_file_path := EmptyString; subfolder := EmptyString |}.

Definition has (doc : Document) (key : string) : bool :=
  bool_decide (is_Some (fields doc !! key)).

Definition __missing__ (doc : Document) (key : string) : value :=
  VStr EmptyString.

(** [doc[key]]: [dict.__getitem__] calls [__missing__] of a subclass
    for a key that is not there. *)
Definition getitem (doc : Document) (key : string) : value :=
  match fields doc !! key with
  | Some v => v
  | None => __missing__ doc key
  end.

(** [doc.get(key)]: [None] for a key that is not there, without
    [__missing__]. *)
Definition get (doc : Document) (key : string) : value :=
  match fields doc !! key with
  | Some v => v
  | None => VNone
  end.

Definition get_main_folder (doc : Document) : option string := _folder doc.

Definition get_info_file (doc : Document) : string := _info_file_path doc.

Definition get_files (doc : Document) : outcome (list string) :=
  match get_main_folder doc with
  | None => Returned []
  | Some folder =>
      match get doc "files" with
      | VNone => Returned []
      | relative_files =>
          let files :=
            match relative_files with
            | VList l => l
            | _ => [relative_files]
            end in
          comprehension (os_path_join folder) files
      end
  end.

(** [load] reads the file system through [os.path.exists] and through
    [papis.yaml.yaml_to_data(path, raise_exception=True)]; [save] writes
    through [papis.yaml.data_to_yaml]. The state of the disk is [disk]. *)
Section DocumentIO.
Context {disk : Type}.
Variable path_exists : disk -> string -> bool.
Variable yaml_to_data : disk -> string -> outcome (gmap string value).
Variable data_to_yaml : string -> gmap string value -> disk -> outcome disk.

Definition save (doc : Document) (d : disk) : outcome disk :=
  data_to_yaml (get_info_file doc) (fields doc) d.

Definition load (doc : Document) (d : disk) : Document * list log_record :=
  let info_file := get_info_file doc in
  if String.eqb info_file EmptyString || negb (path_exists d info_file) then
    (doc, [])
  else
    match yaml_to_data d info_file with
    | Raised exc =>
        (doc,
         [LogRecord ERROR "Error reading info file at '%s'. Please check it!"
            [get_info_file doc] (Some exc)])
    | Returned data => (with_fields doc (update (fields doc) data), [])
    end.
End DocumentIO.

(** [to_dict]: [{key: document[key] for key in document}] *)
Definition to_dict (document : Document) : gmap string value :=
  map_imap (fun key _ => Some (getitem document key)) (fields document).

(** *** [dump] *)

(** [max(len(key) for key in ...)] *)
Definition max_len (keys : list string) : outcome nat :=
  match keys with
  | [] => Raised (ValueError "max() arg is an empty sequence")
  | k :: ks => Returned (foldl Nat.max (String.length k) (map String.length ks))
  end.

Fixpoint spaces (n : nat) : string :=
  match n with
  | O => EmptyString
  | S n' => String " " (spaces n')
  end.

(** ["{:{}}".format(s, width)]: a string is left-aligned and padded with
    spaces up to [width]; a longer one is left as it is. *)
Definition format_width (s : string) (width : nat) : string :=
  s +:+ spaces (width - String.length s).

(** [a < b] for two items [(key, value)] of one dict: their keys differ,
    so the tuples are ordered by their keys. *)
Definition item_lt (a b : string * value) : bool :=
  String.ltb (fst a) (fst b).

Definition dump_width (longest : nat) : nat :=
  ((longest / 4 + 2) * 4 - 1)%nat.

Definition dump_line (width : nat) (item : string * value) : string :=
  format_width (fst item +:+ ":") width +:+ str (snd item).

Definition dump (document : Document) : outcome string :=
  width ← max_len (map fst (map_to_list (fields document)));
  let width := dump_width width in
  Returned
    (join (String (ascii_of_N 10) EmptyString)
       (map (dump_line width)
          (sorted item_lt false (map_to_list (fields document))))).

(** ** Key conversion *)

(** [KeyConversion]: a [TypedDict] with the entries ["key"] and
    ["action"]. An action is any callable; it returns a value or
    raises. *)
Record KeyConversion : Type := mkKeyConversion {
  key : option string;
  action : option (value -> outcome value)
}.

Definition EmptyKeyConversion : KeyConversion :=
  {| key := None; action := None |}.

(** [KeyConversionPair(foreign_key, list)]; the field [list] of the
    source is [conv_list] here. *)
Record KeyConversionPair : Type := mkKeyConversionPair {
  foreign_key : string;
  conv_list : list KeyConversion
}.

(** [conv_data.get("key") or foreign_key] *)
Definition papis_key_of (foreign_key : string) (conv_data : KeyConversion) : string :=
  match key conv_data with
  | Some k => if String.eqb k EmptyString then foreign_key else k
  | None => foreign_key
  end.

(** The body of the inner loop, for one rule [conv_data] of the pair
    with [foreign_key], on the accumulated [new_data] and log. *)
Definition convert_one (foreign_key : string) (data : gmap string value)
    (acc : gmap string value * list log_record) (conv_data : KeyConversion)
    : gmap string value * list log_record :=
  let '(new_data, log) := acc in
  let papis_key := papis_key_of foreign_key conv_data in
  let papis_value := default VNone (data !! foreign_key) in
  let '(new_value, log) :=
    match action conv_data with
    | Some action =>
        match action papis_value with
        | Returned new_value => (new_value, log)
        | Raised exc =>
            (VNone,
             (log ++ [LogRecord DEBUG "Error while trying to parse '%s' (%s)."
                        [papis_key] (Some exc)])%list)
        end
    | None => (papis_value, log)
    end in
  let new_value :=
    match new_value with
    | VStr s => VStr (strip s)
    | _ => new_value
    end in
  if truthy new_value then (<[papis_key := new_value]> new_data, log)
  else (new_data, log).

(** The body of the outer loop, for one pair. *)
Definition convert_pair (data : gmap string value)
    (acc : gmap string value * list log_record) (key_pair : KeyConversionPair)
    : gmap string value * list log_record :=
  let foreign_key := foreign_key key_pair in
  match data !! foreign_key with
  | None => acc
  | Some _ => foldl (convert_one foreign_key data) acc (conv_list key_pair)
  end.

(** The loop over [data.items()] under [keep_unknown_keys]. *)
Definition copy_unknown_keys (conversions : list KeyConversionPair)
    (data new_data : gmap string value) : gmap string value :=
  map_fold
    (fun key value new_data =>
       if bool_decide (key ∈ map foreign_key conversions) then new_data
       else <[key := value]> new_data)
    new_data data.

(** [for x in v]: the items of a list, the characters of a string, the
    keys of a mapping; other values are not iterable. *)
Definition iterate (v : value) : outcome (list value) :=
  match v with
  | VList l => Returned l
  | VStr s => Returned (map (fun c => VStr (String c EmptyString)) (list_ascii_of_string s))
  | VDict d => Returned (map (fun kv => VStr (fst kv)) d)
  | _ => Raised (TypeError "object is not iterable")
  end.

Section Configured.
(** [papis.config.getstring(key)]: the setting, [None] when it is not
    set, or an exception of the configuration module. *)
Variable getstring : string -> outcome (option string).
(** [fmt.format(au=author)] *)
Variable format_au : string -> value -> outcome string.

Definition author_list_to_author (data : gmap string value) : outcome string :=
  match data !! "author_list" with
  | None => Returned EmptyString
  | Some author_list =>
      separator ← getstring "multiple-authors-separator";
      fmt ← getstring "multiple-authors-format";
      match separator, fmt with
      | Some separator, Some fmt =>
          authors ← iterate author_list;
          formatted ← comprehension (format_au fmt) authors;
          Returned (join separator formatted)
      | _, _ =>
          Raised (ConfigurationError
            "Cannot join the author list if the settings 'multiple-authors-separator' and 'multiple-authors-format' are not present in the configuration")
      end
  end.

Definition keyconversion_to_data (conversions : list KeyConversionPair)
    (data : gmap string value) (keep_unknown_keys : bool)
    : outcome (gmap string value) * list log_record :=
  let '(new_data, log) := foldl (convert_pair data) (∅, []) conversions in
  let new_data :=
    if keep_unknown_keys then copy_unknown_keys conversions data new_data
    else new_data in
  match new_data !! "author_list" with
  | Some _ =>
      (author ← author_list_to_author new_data;
       Returned (<["author" := VStr author]> new_data), log)
  | None => (Returned new_data, log)
  end.
End Configured.

(** ** Sorting documents *)

Inductive _SortPriority : Type := Date | Int | Other | Missing.

(** [priority.value] *)
Definition priority_value (p : _SortPriority) : Z :=
  match p with
  | Date => 0
  | Int => 1
  | Other => 2
  | Missing => 3
  end.

(** [papis.strings.time_format] *)
Definition time_format : string := "%Y-%m-%d-%H:%M:%S".

(** A naive [datetime] is a point of the time line, and two of them
    compare as their positions do: the position (in microseconds) is
    the model. *)
Definition datetime : Type := Z.

(** The digits of [int(s)]: decimal digits, with single underscores
    between digits. *)
Fixpoint parse_digits (s : string) (acc : Z) (after_digit : bool) : option Z :=
  match s with
  | EmptyString => if after_digit then Some acc else None
  | String c s' =>
      match Ascii.is_nat c with
      | Some d => parse_digits s' (10 * acc + Z.of_nat d) true
      | None =>
          if Ascii.eqb c "_" && after_digit then parse_digits s' acc false
          else None
      end
  end.

(** [int(s)] for a string: [None] is [ValueError]. *)
Definition py_int (s : string) : option Z :=
  match strip s with
  | String "-" s' => Z.opp <$> parse_digits s' 0 false
  | String "+" s' => parse_digits s' 0 false
  | s' => parse_digits s' 0 false
  end.

(** The sort key [(priority, date, int_value, str_value)]. *)
Definition sort_key : Type := Z * datetime * Z * string.

(** [a < b] for two such tuples: the first components that differ
    decide. *)
Definition tuple_lt (a b : sort_key) : bool :=
  let '(p1, d1, i1, s1) := a in
  let '(p2, d2, i2, s2) := b in
  if negb (p1 =? p2) then p1 <? p2
  else if negb (d1 =? d2) then d1 <? d2
  else if negb (i1 =? i2) then i1 <? i2
  else String.ltb s1 s2.

Section Sort.
(** [datetime.strptime(s, format)]: [None] is [ValueError]. *)
Variable strptime : string -> string -> option datetime.
(** [datetime.fromtimestamp(0)] *)
Variable epoch : datetime.

Definition default_sort_key : _SortPriority * datetime * Z * string :=
  (Missing, epoch, 0, EmptyString).

(** The unnegated tuple that [document_sort_key] builds before its
    [return]. *)
Definition document_sort_fields (key : string) (doc : Document)
    : _SortPriority * datetime * Z * string :=
  let '(priority, date, int_value, str_value) := default_sort_key in
  match get doc key with
  | VNone => (priority, date, int_value, str_value)
  | value =>
      let str_value := str value in
      if String.eqb key "time-added" then
        match strptime str_value time_format with
        | Some date => (Date, date, int_value, str_value)
        | None => (priority, date, int_value, str_value)
        end
      else
        match py_int str_value with
        | Some int_value => (Int, date, int_value, str_value)
        | None => (Other, date, int_value, str_value)
        end
  end.

Definition document_sort_key (key : string) (reverse : bool) (doc : Document)
    : sort_key :=
  let '(priority, date, int_value, str_value) := document_sort_fields key doc in
  (if reverse then - priority_value priority else priority_value priority,
   date, int_value, str_value).

Definition sort (docs : list Document) (key : string) (reverse : bool)
    : list Document * list log_record :=
  (sorted
     (fun a b => tuple_lt (document_sort_key key reverse a)
                          (document_sort_key key reverse b))
     reverse docs,
   [LogRecord DEBUG "Sorting %d documents."
      [str_of_Z (Z.of_nat (length docs))] None]).

(** The comparator as the specification words it: ascending by the
    tuple, whose priority is negated under [reverse]. *)
Definition sort_as_specified (docs : list Document) (key : string)
    (reverse : bool) : list Document :=
  stable_sort
    (fun a b => tuple_lt (document_sort_key key reverse a)
                         (document_sort_key key reverse b))
    docs.
End Sort.

(** ** [papis update] *)

Section Update.
(** What lies outside the document: the library database, the disk,
    the git repository. *)
Context {world : Type}.
(** [papis.document.describe] *)
Variable describe : Document -> string.
(** [papis.commands.doctor.fix_errors], which changes the document *)
Variable fix_errors : Document -> Document.
(** [papis.api.save_doc] *)
Variable save_doc : Document -> world -> outcome world.
(** [papis.git.add_and_commit_resource(folder, info, message)] *)
Variable add_and_commit_resource : string -> string -> string -> world -> outcome world.

(** The state that [run] and [cli] act on. *)
Record state : Type := mkState {
  st_document : Document;
  st_world : world;
  st_log : list log_record
}.

Definition run (data : option (gmap string value)) (git auto_doctor : bool)
    (st : state) : outcome unit * state :=
  let document := st_document st in
  let data := default ∅ data in
  let folder := get_main_folder document in
  let info := get_info_file document in
  match folder with
  | Some folder =>
      if String.eqb folder EmptyString || String.eqb info EmptyString then
        (Raised (DocumentFolderNotFound (describe document)), st)
      else
        let document := with_fields document (update (fields document) data) in
        let '(document, log) :=
          if auto_doctor then
            (fix_errors document,
             (st_log st ++ [LogRecord INFO "Running doctor auto-fixers on document: '%s'."
                             [describe document] None])%list)
          else (document, st_log st) in
        match save_doc document (st_world st) with
        | Raised e => (Raised e, mkState document (st_world st) log)
        | Returned w =>
            if git then
              match add_and_commit_resource folder info
                      ("Update information for '" +:+ describe document +:+ "'") w with
              | Raised e => (Raised e, mkState document w log)
              | Returned w' => (Returned tt, mkState document w' log)
              end
            else (Returned tt, mkState document w log)
        end
  | None => (Raised (DocumentFolderNotFound (describe document)), st)
  end.

(** [ctx.data] at the call of [run] in the loop of [cli], for one
    document: [set_data] is the result of [process_set_tuples] and
    [imported_data] is the [data] of [collect_importer_data]. *)
Definition cli_ctx_data (document : Document)
    (set_data imported_data : gmap string value) : gmap string value :=
  let ctx_data := ∅ in
  let ctx_data := update ctx_data (fields document) in
  let ctx_data := update ctx_data set_data in
  let imported_data :=
    if bool_decide (is_Some (imported_data !! "ref")) then delete "ref" imported_data
    else imported_data in
  update ctx_data imported_data.

(** The body of the loop of [cli] for one document, once the
    overrides and the importers' data are there. *)
Definition cli_document (set_data imported_data : gmap string value)
    (importer_names : list string) (git auto_doctor : bool) (st : state)
    : outcome unit * state :=
  let document := st_document st in
  let log := (st_log st ++ [LogRecord INFO "Updating %s." [describe document] None])%list in
  let log :=
    if bool_decide (is_Some (imported_data !! "ref")) then
      (log ++ [LogRecord DEBUG
                "An importer set the 'ref' key. This is not allowed and will be automatically removed. Check importers: '%s'"
                [join "', '" importer_names] None])%list
    else log in
  run (Some (cli_ctx_data document set_data imported_data)) git auto_doctor
    (mkState document (st_world st) log).
End Update.

(** ** Instances used in the examples *)

(** The fragment of [str.format] that the default of
    [multiple-authors-format] needs: literal text and the replacement
    fields [{au[name]}]. *)
Fixpoint take_until (c : ascii) (s : string) : option (string * string) :=
  match s with
  | EmptyString => None
  | String d s' =>
      if Ascii.eqb c d then Some (EmptyString, s')
      else '(a, b) ← take_until c s'; Some (String d a, b)
  end.

Fixpoint format_fields (fuel : nat) (fmt : string) (au : value) : outcome string :=
  match fuel with
  | O => Raised (ValueError "format")
  | S fuel' =>
      match fmt with
      | EmptyString => Returned EmptyString
      | String "{" (String "a" (String "u" (String "[" rest))) =>
          match take_until "]" rest with
          | Some (name, String "}" rest') =>
              match au with
              | VDict d =>
                  match list_find (fun kv => fst kv = name) d with
                  | Some (_, (_, v)) =>
                      tail ← format_fields fuel' rest' au;
                      Returned (str v +:+ tail)
                  | None => Raised (KeyError name)
                  end
              | _ => Raised (TypeError "not subscriptable")
              end
          | _ => Raised (ValueError "format")
          end
      | String c rest =>
          tail ← format_fields fuel' rest au;
          Returned (String c tail)
      end
  end.

Definition format_au_fields (fmt : string) (au : value) : outcome string :=
  format_fields (S (String.length fmt)) fmt au.

(** The defaults of the two settings of the author join. *)
Definition default_getstring (name : string) : outcome (option string) :=
  if String.eqb name "multiple-authors-separator" then Returned (Some " and ")
  else if String.eqb name "multiple-authors-format" then
    Returned (Some "{au[family]}, {au[given]}")
  else if String.eqb name "info-name" then Returned (Some "info.yaml")
  else Returned None.

(** A configuration without any setting. *)
Definition unset_getstring (name : string) : outcome (option string) :=
  Returned None.

(** A look-up that raises for every setting. *)
Definition raising_getstring (name : string) : outcome (option string) :=
  Raised (ConfigurationError name).

(** Documents of the examples. *)
Definition doc_in_folder (data : gmap string value) : Document :=
  {| fields := data; _folder := Some "/lib/doc";
     _info_file_path := "/lib/doc/info.yaml"; subfolder := " lib doc" |}.

Definition author1 : value := VDict [("given", VStr "Some"); ("family", VStr "Author")].
Definition author2 : value := VDict [("given", VStr "Other"); ("family", VStr "Author")].

(** A disk for the examples: a path holds a record file that parses to
    a mapping or fails to parse. *)
Definition example_disk : Type := gmap string (outcome (gmap string value)).

Definition example_exists (d : example_disk) (path : string) : bool :=
  bool_decide (is_Some (d !! path)).

Definition example_yaml_to_data (d : example_disk) (path : string)
    : outcome (gmap string value) :=
  default (Raised (OtherException "FileNotFoundError")) (d !! path).

Definition example_save_doc (doc : Document) (d : example_disk) : outcome example_disk :=
  Returned (<[get_info_file doc := Returned (fields doc)]> d).

Definition example_describe (doc : Document) : string :=
  str (getitem doc "title").

Definition example_commit (folder info message : string) (d : example_disk)
    : outcome example_disk :=
  Returned d.

(** *** Vocabulary of the statements on key conversion *)

(** The rule [c] of a pair with [foreign_key] has an action, and the
    action raises [exc] on the foreign value. *)
Definition rule_raises (foreign_key : string) (data : gmap string value)
    (c : KeyConversion) (exc : exn) : Prop :=
  exists act, action c = Some act /\
              act (default VNone (data !! foreign_key)) = Raised exc.

(** The value that the rule [c] ends with: [new_value] at the test
    [if new_value:]. *)
Definition rule_value (foreign_key : string) (data : gmap string value)
    (c : KeyConversion) : value :=
  let papis_value := default VNone (data !! foreign_key) in
  let new_value :=
    match action c with
    | Some act =>
        match act papis_value with
        | Returned v => v
        | Raised _ => VNone
        end
    | None => papis_value
    end in
  match new_value with
  | VStr s => VStr (strip s)
  | _ => new_value
  end.

(** The debug record of a rule that raised. *)
Definition parse_error_record (foreign_key : string) (c : KeyConversion) (exc : exn)
    : log_record :=
  LogRecord DEBUG "Error while trying to parse '%s' (%s)."
    [papis_key_of foreign_key c] (Some exc).

(** An action that raises on every value. *)
Definition failing_action (v : value) : outcome value :=
  Raised (OtherException "ZeroDivisionError").

(** [new_data] when the loops are over, before the author
    post-processing. *)
Definition converted_data (conversions : list KeyConversionPair)
    (data : gmap string value) (keep_unknown_keys : bool) : gmap string value :=
  let new_data := (foldl (convert_pair data) (∅, []) conversions).1 in
  if keep_unknown_keys then copy_unknown_keys conversions data new_data
  else new_data.

(** The conversions of the examples: the rule for ["author"] raises,
    and ["authors"] is renamed to ["author_list"]. *)
Definition author_rule : KeyConversion :=
  {| key := Some "author"; action := Some failing_action |}.

Definition example_conversions : list KeyConversionPair :=
  [ mkKeyConversionPair "name" [author_rule];
    mkKeyConversionPair "authors" [ {| key := Some "author_list"; action := None |} ] ].

Definition example_foreign_data : gmap string value :=
  {[ "name" := VStr "S. Author"; "authors" := VList [author1; author2] ]}.

(** Conversions whose rule for ["author"] copies the foreign value. *)
Definition renaming_conversions : list KeyConversionPair :=
  [ mkKeyConversionPair "name" [ {| key := Some "author"; action := None |} ];
    mkKeyConversionPair "authors" [ {| key := Some "author_list"; action := None |} ] ].

(** Conversions and data without any list of authors. *)
Definition year_conversions : list KeyConversionPair :=
  [ mkKeyConversionPair "name" [author_rule];
    mkKeyConversionPair "year" [EmptyKeyConversion] ].

Definition year_foreign_data : gmap string value :=
  {[ "name" := VStr "S. Author"; "year" := VStr " 2020 " ]}.

(** *** Vocabulary of the statements on [sort] *)

(** The category of a document for a sort key: the ordinal of its
    priority. *)
Definition sort_category (strptime : string -> string -> option datetime)
    (epoch : datetime) (key : string) (doc : Document) : Z :=
  priority_value (document_sort_fields strptime epoch key doc).1.1.1.

(** Instances for the examples, which never sort by ["time-added"]: the
    origin of the time line is the epoch, and no string is a date. *)
Definition example_epoch : datetime := 0.
Definition example_strptime (s format : string) : option datetime := None.

Definition doc_2020 : Document := from_data {[ "year" := VInt 2020 ]}.
Definition doc_1999 : Document := from_data {[ "year" := VStr "1999" ]}.
Definition doc_untitled : Document := from_data {[ "title" := VStr "Untitled" ]}.

(** *** The wording of the specification, for comparison *)

(** "the next multiple of 4 above [n]" *)
Definition next_multiple_of_4_above (n : nat) : nat :=
  ((n / 4 + 1) * 4)%nat.

(** [dump] with the column width of the specification: the next
    multiple of 4 above the longest key, and at least one space after
    the colon. *)
Definition dump_line_as_specified (width : nat) (item : string * value) : string :=
  fst item +:+ ":" +:+ spaces (Nat.max 1 (width - S (String.length (fst item))))
  +:+ str (snd item).

Definition dump_as_specified (document : Document) : outcome string :=
  width ← max_len (map fst (map_to_list (fields document)));
  let width := next_multiple_of_4_above width in
  Returned
    (join (String (ascii_of_N 10) EmptyString)
       (map (dump_line_as_specified width)
          (sorted item_lt false (map_to_list (fields document))))).

(** ** [class DocHtmlEscaped] *)

(** [s.replace(old, new)] for a pattern [old] of one character, as in
    the four calls of [DocHtmlEscaped.__getitem__]: every occurrence is
    replaced. *)
Fixpoint replace_char (old : ascii) (new : string) (s : string) : string :=
  match s with
  | EmptyString => EmptyString
  | String c s' =>
      if Ascii.eqb c old then new +:+ replace_char old new s'
      else String c (replace_char old new s')
  end.

(** [DocHtmlEscaped(doc)[key]], which is [doc.html_escape[key]]. *)
Definition DocHtmlEscaped_getitem (doc : Document) (key : string) : string :=
  replace_char dquote "&quot;"
    (replace_char ">" "&gt;"
       (replace_char "<" "&lt;"
          (replace_char "&" "&amp;" (str (getitem doc key))))).

(** *** Vocabulary of the further statements *)

(** What one character becomes in the escaped string. *)
Definition html_entity (c : ascii) : string :=
  if Ascii.eqb c "&" then "&amp;"
  else if Ascii.eqb c "<" then "&lt;"
  else if Ascii.eqb c ">" then "&gt;"
  else if Ascii.eqb c dquote then "&quot;"
  else String c EmptyString.

Fixpoint html_entities (s : string) : string :=
  match s with
  | EmptyString => EmptyString
  | String c s' => html_entity c +:+ html_entities s'
  end.

(** [v is None] *)
Definition is_none (v : value) : bool :=
  match v with VNone => true | _ => false end.

(** The last character of a string. *)
Fixpoint last_char (s : string) : option ascii :=
  match s with
  | EmptyString => None
  | String c EmptyString => Some c
  | String _ s' => last_char s'
  end.

(** The first character of a string. *)
Definition first_char (s : string) : option ascii :=
  match s with
  | EmptyString => None
  | String c _ => Some c
  end.

(** A string neither starts nor ends with whitespace. *)
Definition is_stripped (s : string) : Prop :=
  (forall c, first_char s = Some c -> py_isspace c = false) /\
  (forall c, last_char s = Some c -> py_isspace c = false).

(** Further documents of the examples. *)
Definition doc_7 : Document := from_data {[ "year" := VInt 7 ]}.

Definition doc_markup : Document :=
  from_data {[ "title" :=
    VStr ("> >< int & " +:+
          String dquote (String dquote (String " " (String dquote EmptyString)))) ]}.


(** * Properties *)

(** ** Subscript access *)

(** C9: for every document and every key that is not among its fields,
    [doc[key]] is the empty string; the access is a total function, it
    raises nothing. *)
Theorem getitem_missing (doc : Document) (k : string) :
  fields doc !! k = None -> getitem doc k = VStr EmptyString.
Proof.
  intros Hk. unfold getitem. rewrite Hk. reflexivity.
Qed.

Lemma getitem_missing_witness :
  fields (from_data {[ "title" := VStr "Hello World" ]}) !! "year" = None /\
  getitem (from_data {[ "title" := VStr "Hello World" ]}) "year" = VStr EmptyString.
Proof.
  split; [reflexivity | apply (getitem_missing _ "year"); reflexivity].
Defined.

Lemma getitem_present (doc : Document) (k : string) (v : value) :
  fields doc !! k = Some v -> getitem doc k = v.
Proof. intros Hk. unfold getitem. by rewrite Hk. Qed.

(** ** The author join *)

(** C10: on a mapping without ["author_list"], [author_list_to_author]
    returns the empty string whatever the configuration lookup would
    do, be it a setting that is not there or an exception: the lookup
    is not reached. *)
Theorem author_list_to_author_no_list
    (getstring : string -> outcome (option string))
    (format_au : string -> value -> outcome string)
    (data : gmap string value) :
  data !! "author_list" = None ->
  author_list_to_author getstring format_au data = Returned EmptyString.
Proof.
  intros Hnone. unfold author_list_to_author. rewrite Hnone. reflexivity.
Qed.

Lemma author_list_to_author_no_list_witness :
  ({[ "title" := VStr "Hello World" ]} : gmap string value) !! "author_list" = None /\
  author_list_to_author raising_getstring format_au_fields
    {[ "title" := VStr "Hello World" ]} = Returned EmptyString /\
  author_list_to_author unset_getstring format_au_fields
    {[ "title" := VStr "Hello World" ]} = Returned EmptyString.
Proof.
  split; [reflexivity |].
  split; apply author_list_to_author_no_list; reflexivity.
Defined.

(** With the list there, the same configurations make the join fail. *)
Example author_list_to_author_unset :
  author_list_to_author unset_getstring format_au_fields
    {[ "author_list" := VList [author1; author2] ]}
  = Raised (ConfigurationError
      "Cannot join the author list if the settings 'multiple-authors-separator' and 'multiple-authors-format' are not present in the configuration")
  /\ author_list_to_author raising_getstring format_au_fields
       {[ "author_list" := VList [author1; author2] ]}
     = Raised (ConfigurationError "multiple-authors-separator").
Proof. split; reflexivity. Qed.

(** The doctest of [author_list_to_author]. *)
Example author_list_to_author_doctest :
  author_list_to_author default_getstring format_au_fields
    {[ "author_list" := VList [author1; author2] ]}
  = Returned "Author, Some and Author, Other".
Proof. reflexivity. Qed.

(** ** Files of a document *)

Lemma comprehension_join_strs (folder : string) (paths : list string) :
  comprehension (os_path_join folder) (map VStr paths)
  = Returned (map (path_join folder) paths).
Proof.
  induction paths as [|p paths IH]; [reflexivity|].
  cbn [map comprehension os_path_join]. rewrite IH. reflexivity.
Qed.

Lemma path_join_absolute (folder p : string) :
  startswith_sep folder = true -> startswith_sep (path_join folder p) = true.
Proof.
  intros Hf. unfold path_join.
  destruct (startswith_sep p) eqn:Hp; [exact Hp|].
  destruct folder as [|c folder]; [discriminate|].
  destruct (_ || _); exact Hf.
Qed.

(** C8: [get_files] returns the empty list when the folder is unset,
    whatever the fields hold, and when ["files"] is absent; otherwise a
    single path is treated as a list of one, and every entry is joined
    onto the folder, which gives absolute paths for an absolute
    folder. *)
Theorem get_files_spec (doc : Document) :
  (get_main_folder doc = None -> get_files doc = Returned []) /\
  (fields doc !! "files" = None -> get_files doc = Returned []) /\
  (forall folder p,
     get_main_folder doc = Some folder ->
     fields doc !! "files" = Some (VStr p) ->
     get_files doc = Returned [path_join folder p]) /\
  (forall folder paths,
     get_main_folder doc = Some folder ->
     fields doc !! "files" = Some (VList (map VStr paths)) ->
     get_files doc = Returned (map (path_join folder) paths)) /\
  (forall folder files,
     get_main_folder doc = Some folder ->
     startswith_sep folder = true ->
     get_files doc = Returned files ->
     Forall (fun f => startswith_sep f = true) files).
Proof.
  unfold get_files, get.
  split; [intros ->; reflexivity|].
  split; [intros ->; destruct (get_main_folder doc); reflexivity|].
  split; [intros folder p -> ->; reflexivity|].
  split; [intros folder paths -> ->; apply comprehension_join_strs|].
  intros folder files -> Habs.
  assert (Hall : forall l files',
    comprehension (os_path_join folder) l = Returned files' ->
    Forall (fun f => startswith_sep f = true) files').
  { induction l as [|v l IH]; intros files' Hl; cbn in Hl.
    - injection Hl as <-. constructor.
    - destruct v; cbn in Hl; try discriminate.
      destruct (comprehension (os_path_join folder) l) as [fs|e] eqn:Hfs;
        cbn in Hl; [|discriminate].
      injection Hl as <-. constructor; [by apply path_join_absolute | by apply IH]. }
  destruct (fields doc !! "files") as [v|]; [|intros [= <-]; constructor].
  destruct v; try apply Hall. intros [= <-]; constructor.
Qed.

Lemma get_files_spec_witness :
  get_main_folder (from_data {[ "files" := VList [VStr "a.pdf"] ]}) = None /\
  get_files (from_data {[ "files" := VList [VStr "a.pdf"] ]}) = Returned [] /\
  get_files (doc_in_folder {[ "title" := VStr "Hello World" ]}) = Returned [] /\
  get_files (doc_in_folder {[ "files" := VStr "a.pdf" ]}) = Returned ["/lib/doc/a.pdf"] /\
  get_files (doc_in_folder {[ "files" := VList (map VStr ["a.pdf"; "b/c.djvu"]) ]})
  = Returned ["/lib/doc/a.pdf"; "/lib/doc/b/c.djvu"].
Proof.
  split; [reflexivity|].
  split; [apply (proj1 (get_files_spec (from_data {[ "files" := VList [VStr "a.pdf"] ]})));
          reflexivity|].
  split; [apply (proj1 (proj2 (get_files_spec
                   (doc_in_folder {[ "title" := VStr "Hello World" ]}))));
          reflexivity|].
  split.
  - apply (proj1 (proj2 (proj2 (get_files_spec (doc_in_folder {[ "files" := VStr "a.pdf" ]}))))
             "/lib/doc" "a.pdf"); reflexivity.
  - apply (proj1 (proj2 (proj2 (proj2 (get_files_spec
             (doc_in_folder {[ "files" := VList (map VStr ["a.pdf"; "b/c.djvu"]) ]})))))
             "/lib/doc" ["a.pdf"; "b/c.djvu"]); reflexivity.
Defined.

(** An entry that is no string makes the join raise. *)
Example get_files_not_a_path :
  get_files (doc_in_folder {[ "files" := VInt 3 ]})
  = Raised (TypeError "expected str, bytes or os.PathLike object").
Proof. reflexivity. Qed.

(** ** Loading a document *)

(** C5: [load] changes nothing and logs nothing when there is no record
    file, and when the record file is there and its parsing raises, the
    document is returned as it was, with one error record in the log;
    [load] is a total function, it raises nothing. *)
Theorem load_spec {disk : Type}
    (path_exists : disk -> string -> bool)
    (yaml_to_data : disk -> string -> outcome (gmap string value))
    (doc : Document) (d : disk) :
  (get_info_file doc = EmptyString \/ path_exists d (get_info_file doc) = false ->
   load path_exists yaml_to_data doc d = (doc, [])) /\
  (forall exc,
     get_info_file doc <> EmptyString ->
     path_exists d (get_info_file doc) = true ->
     yaml_to_data d (get_info_file doc) = Raised exc ->
     exists record,
       load path_exists yaml_to_data doc d = (doc, [record]) /\
       level record = ERROR /\ exc_info record = Some exc).
Proof.
  unfold load. split.
  - intros [-> | ->]; [reflexivity|].
    by rewrite orb_true_r.
  - intros exc Hne Hex Hyaml.
    apply String.eqb_neq in Hne. rewrite Hne, Hex, Hyaml. cbn.
    eexists. split; [reflexivity|]. split; reflexivity.
Qed.

Lemma load_spec_witness :
  load example_exists example_yaml_to_data
    (doc_in_folder {[ "title" := VStr "Hello World" ]}) ∅
  = (doc_in_folder {[ "title" := VStr "Hello World" ]}, []) /\
  exists record,
    load example_exists example_yaml_to_data
      (doc_in_folder {[ "title" := VStr "Hello World" ]})
      {[ "/lib/doc/info.yaml" := Raised (ValueError "mapping values are not allowed here") ]}
    = (doc_in_folder {[ "title" := VStr "Hello World" ]}, [record]) /\
    level record = ERROR /\
    exc_info record = Some (ValueError "mapping values are not allowed here").
Proof.
  split.
  - apply (proj1 (load_spec example_exists example_yaml_to_data
             (doc_in_folder {[ "title" := VStr "Hello World" ]}) ∅)).
    right. reflexivity.
  - apply (proj2 (load_spec example_exists example_yaml_to_data
             (doc_in_folder {[ "title" := VStr "Hello World" ]})
             {[ "/lib/doc/info.yaml" :=
                  Raised (ValueError "mapping values are not allowed here") ]}));
      [discriminate | reflexivity | reflexivity].
Defined.

(** A record file that parses is merged into the fields. *)
Example load_parsed :
  load example_exists example_yaml_to_data
    (doc_in_folder {[ "title" := VStr "Hello World" ]})
    {[ "/lib/doc/info.yaml" := Returned {[ "year" := VInt 2020 ]} ]}
  = (doc_in_folder {[ "title" := VStr "Hello World"; "year" := VInt 2020 ]}, []).
Proof. reflexivity. Qed.

(** ** The update pipeline *)

(** C7: [run] on a document without a folder raises
    [DocumentFolderNotFound] and leaves the state as it was: the fields
    of the document, the world (nothing is saved or committed) and the
    log. *)
Theorem run_no_folder {world : Type}
    (describe : Document -> string) (fix_errors : Document -> Document)
    (save_doc : Document -> world -> outcome world)
    (add_and_commit_resource : string -> string -> string -> world -> outcome world)
    (data : option (gmap string value)) (git auto_doctor : bool)
    (st : state) :
  get_main_folder (st_document st) = None ->
  run describe fix_errors save_doc add_and_commit_resource data git auto_doctor st
  = (Raised (DocumentFolderNotFound (describe (st_document st))), st).
Proof.
  intros Hfolder. unfold run. rewrite Hfolder. reflexivity.
Qed.

Lemma run_no_folder_witness :
  get_main_folder (from_data {[ "title" := VStr "Hello World" ]}) = None /\
  run example_describe id example_save_doc example_commit
    (Some {[ "year" := VInt 2020 ]}) true true
    (mkState (from_data {[ "title" := VStr "Hello World" ]}) (∅ : example_disk) [])
  = (Raised (DocumentFolderNotFound "Hello World"),
     mkState (from_data {[ "title" := VStr "Hello World" ]}) (∅ : example_disk) []).
Proof.
  split; [reflexivity|].
  exact (run_no_folder example_describe id example_save_doc example_commit
           (Some {[ "year" := VInt 2020 ]}) true true
           (mkState (from_data {[ "title" := VStr "Hello World" ]}) (∅ : example_disk) [])
           eq_refl).
Defined.

(** The same holds for an empty folder or an empty record path. *)
Lemma run_empty_paths {world : Type}
    (describe : Document -> string) (fix_errors : Document -> Document)
    (save_doc : Document -> world -> outcome world)
    (add_and_commit_resource : string -> string -> string -> world -> outcome world)
    (data : option (gmap string value)) (git auto_doctor : bool)
    (st : state) :
  get_main_folder (st_document st) = Some EmptyString \/
  get_info_file (st_document st) = EmptyString ->
  run describe fix_errors save_doc add_and_commit_resource data git auto_doctor st
  = (Raised (DocumentFolderNotFound (describe (st_document st))), st).
Proof.
  intros [H | H]; unfold run; rewrite H.
  - reflexivity.
  - destruct (get_main_folder (st_document st)); [|reflexivity].
    cbn. by rewrite orb_true_r.
Qed.

(** With a folder, the data is applied and the document is saved. *)
Example run_in_folder :
  run example_describe id example_save_doc example_commit
    (Some {[ "year" := VInt 2020 ]}) false false
    (mkState (doc_in_folder {[ "title" := VStr "Hello World" ]}) (∅ : example_disk) [])
  = (Returned tt,
     mkState (doc_in_folder {[ "title" := VStr "Hello World"; "year" := VInt 2020 ]})
       ({[ "/lib/doc/info.yaml" :=
             Returned {[ "title" := VStr "Hello World"; "year" := VInt 2020 ]} ]}
          : example_disk)
       []).
Proof. reflexivity. Qed.

Lemma lookup_update (d other : gmap string value) (k : string) :
  update d other !! k =
  match other !! k with
  | Some v => Some v
  | None => d !! k
  end.
Proof.
  unfold update. rewrite lookup_union.
  destruct (other !! k), (d !! k); reflexivity.
Qed.

Lemma lookup_cli_ctx_data (document : Document)
    (set_data imported_data : gmap string value) (k : string) :
  cli_ctx_data document set_data imported_data !! k =
  match (if decide (k = "ref") then None else imported_data !! k) with
  | Some v => Some v
  | None =>
      match set_data !! k with
      | Some v => Some v
      | None => fields document !! k
      end
  end.
Proof.
  unfold cli_ctx_data. rewrite !lookup_update, lookup_empty.
  assert (Hdoc : match fields document !! k with Some v => Some v | None => None end
                 = fields document !! k) by (by destruct (fields document !! k)).
  rewrite Hdoc. clear Hdoc.
  case_bool_decide as Href.
  - destruct (decide (k = "ref")) as [->|Hne].
    + by rewrite lookup_delete_eq.
    + rewrite lookup_delete_ne by congruence. reflexivity.
  - destruct (decide (k = "ref")) as [->|Hne]; [|reflexivity].
    destruct (imported_data !! "ref") eqn:Himp; [|reflexivity].
    exfalso. apply Href. by eexists.
Qed.

(** C2: the data handed to [run] overlays the fields of the document,
    then the overrides, then the importers' data, a later overlay
    winning; the importers' ["ref"] never gets there, so that ["ref"]
    is the one of the overrides over the document, and the document's
    own when no override sets it. Applying the data to the document
    makes it the document's fields. *)
Theorem cli_ctx_data_precedence (document : Document)
    (set_data imported_data : gmap string value) :
  (forall k v, k <> "ref" -> imported_data !! k = Some v ->
     cli_ctx_data document set_data imported_data !! k = Some v) /\
  (forall k v, k <> "ref" -> imported_data !! k = None -> set_data !! k = Some v ->
     cli_ctx_data document set_data imported_data !! k = Some v) /\
  (forall k, k <> "ref" -> imported_data !! k = None -> set_data !! k = None ->
     cli_ctx_data document set_data imported_data !! k = fields document !! k) /\
  (forall a b c,
     fields document !! "tags" = Some a -> set_data !! "tags" = Some b ->
     imported_data !! "tags" = Some c ->
     cli_ctx_data document set_data imported_data !! "tags" = Some c) /\
  cli_ctx_data document set_data imported_data !! "ref"
  = update (fields document) set_data !! "ref" /\
  (set_data !! "ref" = None ->
   cli_ctx_data document set_data imported_data !! "ref" = fields document !! "ref") /\
  update (fields document) (cli_ctx_data document set_data imported_data)
  = cli_ctx_data document set_data imported_data.
Proof.
  repeat split.
  - intros k v Hk Hi. rewrite lookup_cli_ctx_data, decide_False, Hi by done. done.
  - intros k v Hk Hi Hs. rewrite lookup_cli_ctx_data, decide_False, Hi, Hs by done. done.
  - intros k Hk Hi Hs. rewrite lookup_cli_ctx_data, decide_False, Hi, Hs by done. done.
  - intros a b c _ _ Hi. rewrite lookup_cli_ctx_data, decide_False, Hi by done. done.
  - rewrite lookup_cli_ctx_data, lookup_update. reflexivity.
  - intros Hs. rewrite lookup_cli_ctx_data, Hs. reflexivity.
  - apply map_eq. intros k. rewrite lookup_update, !lookup_cli_ctx_data.
    destruct (decide (k = "ref")); cbn;
      repeat (destruct (_ !! k); try reflexivity).
Qed.

Lemma cli_ctx_data_precedence_witness :
  cli_ctx_data (doc_in_folder {[ "tags" := VStr "a"; "ref" := VStr "Own2020" ]})
    {[ "tags" := VStr "b" ]} {[ "tags" := VStr "c"; "ref" := VStr "X" ]} !! "tags"
  = Some (VStr "c") /\
  cli_ctx_data (doc_in_folder {[ "tags" := VStr "a"; "ref" := VStr "Own2020" ]})
    {[ "tags" := VStr "b" ]} {[ "tags" := VStr "c"; "ref" := VStr "X" ]} !! "ref"
  = Some (VStr "Own2020").
Proof.
  pose proof (cli_ctx_data_precedence
    (doc_in_folder {[ "tags" := VStr "a"; "ref" := VStr "Own2020" ]})
    {[ "tags" := VStr "b" ]} {[ "tags" := VStr "c"; "ref" := VStr "X" ]})
    as (_ & _ & _ & Htags & _ & Href & _).
  split.
  - apply (Htags (VStr "a") (VStr "b") (VStr "c")); reflexivity.
  - rewrite Href; reflexivity.
Defined.

(** The loop body on the example of the specification: the merged
    record is saved, with the importers' ["tags"] and the document's
    own ["ref"]. *)
Example cli_document_example :
  cli_document example_describe id example_save_doc example_commit
    {[ "tags" := VStr "b" ]} {[ "tags" := VStr "c"; "ref" := VStr "X" ]}
    ["crossref"] false false
    (mkState (doc_in_folder {[ "tags" := VStr "a"; "ref" := VStr "Own2020" ]})
       (∅ : example_disk) [])
  = (Returned tt,
     mkState (doc_in_folder {[ "tags" := VStr "c"; "ref" := VStr "Own2020" ]})
       ({[ "/lib/doc/info.yaml" :=
             Returned {[ "tags" := VStr "c"; "ref" := VStr "Own2020" ]} ]} : example_disk)
       [LogRecord INFO "Updating %s." [EmptyString] None;
        LogRecord DEBUG
          "An importer set the 'ref' key. This is not allowed and will be automatically removed. Check importers: '%s'"
          ["crossref"] None]).
Proof. reflexivity. Qed.

(** ** Facts on [sorted] *)

Section SortedFacts.
Context {A : Type} (lt : A -> A -> bool).

Lemma insert_sorted_perm (x : A) (l : list A) : insert_sorted lt x l ≡ₚ x :: l.
Proof.
  induction l as [|y l IH]; cbn; [reflexivity|].
  destruct (lt y x); [|reflexivity].
  rewrite IH. apply Permutation_swap.
Qed.

Lemma stable_sort_perm (l : list A) : stable_sort lt l ≡ₚ l.
Proof.
  induction l as [|x l IH]; cbn; [reflexivity|].
  by rewrite insert_sorted_perm, IH.
Qed.

Lemma rev_is_reverse (l : list A) : rev l = reverse l.
Proof. unfold reverse. apply rev_alt. Qed.

Lemma sorted_perm (r : bool) (l : list A) : sorted lt r l ≡ₚ l.
Proof.
  destruct r; cbn; [|apply stable_sort_perm].
  rewrite !rev_is_reverse.
  by rewrite reverse_Permutation, stable_sort_perm, reverse_Permutation.
Qed.

(** [lt] is the strict part of a total preorder. *)
Hypothesis lt_asym : forall a b, lt a b = true -> lt b a = false.
Hypothesis le_trans :
  forall a b c, lt b a = false -> lt c b = false -> lt c a = false.

Lemma insert_sorted_sorted (x : A) (l : list A) :
  StronglySorted (fun a b => lt b a = false) l ->
  StronglySorted (fun a b => lt b a = false) (insert_sorted lt x l).
Proof.
  induction l as [|y l IH]; cbn; intros Hl.
  - repeat constructor.
  - apply StronglySorted_inv in Hl as [Hl Hy].
    destruct (lt y x) eqn:Hyx.
    + constructor; [by apply IH|].
      rewrite insert_sorted_perm. constructor; [by apply lt_asym | done].
    + constructor; [by constructor|].
      constructor; [done|].
      eapply Forall_impl; [exact Hy|]. intros z Hz. by eapply le_trans.
Qed.

Lemma stable_sort_sorted (l : list A) :
  StronglySorted (fun a b => lt b a = false) (stable_sort lt l).
Proof.
  induction l as [|x l IH]; cbn; [constructor | by apply insert_sorted_sorted].
Qed.

Lemma StronglySorted_reverse (R : relation A) (l : list A) :
  StronglySorted R l -> StronglySorted (flip R) (reverse l).
Proof.
  induction 1 as [|x l Hl IH Hx]; [constructor|].
  rewrite reverse_cons. apply StronglySorted_app. split_and!.
  - intros y z Hy ->%list_elem_of_singleton.
    rewrite elem_of_reverse in Hy. rewrite Forall_forall in Hx.
    unfold flip. by apply Hx.
  - done.
  - repeat constructor.
Qed.

(** Under [reverse=True] the result descends. *)
Lemma sorted_reverse_sorted (l : list A) :
  StronglySorted (fun a b => lt a b = false) (sorted lt true l).
Proof.
  cbn. rewrite !rev_is_reverse.
  apply (StronglySorted_reverse (fun a b => lt b a = false)).
  apply stable_sort_sorted.
Qed.

(** Stability: the items of one class of equal keys keep their input
    order, whatever [reverse] is. *)
Section Stable.
Context (P : A -> Prop) `{!forall x, Decision (P x)}.
Hypothesis P_class : forall x y, P x -> P y -> lt y x = false.

Lemma insert_sorted_filter (x : A) (l : list A) :
  filter P (insert_sorted lt x l) = filter P (x :: l).
Proof.
  induction l as [|y l IH]; cbn; [reflexivity|].
  destruct (lt y x) eqn:Hyx; [|reflexivity].
  rewrite (filter_cons _ y), IH, !filter_cons.
  destruct (decide (P y)) as [Hy|Hy], (decide (P x)) as [Hx|Hx]; try reflexivity.
  rewrite (P_class x y) in Hyx by done. discriminate.
Qed.

Lemma stable_sort_filter (l : list A) :
  filter P (stable_sort lt l) = filter P l.
Proof.
  induction l as [|x l IH]; cbn; [reflexivity|].
  by rewrite insert_sorted_filter, !filter_cons, IH.
Qed.

Lemma sorted_filter (r : bool) (l : list A) :
  filter P (sorted lt r l) = filter P l.
Proof.
  destruct r; cbn; [|apply stable_sort_filter].
  rewrite !rev_is_reverse.
  by rewrite filter_reverse, stable_sort_filter, filter_reverse, reverse_involutive.
Qed.
End Stable.
End SortedFacts.

(** ** The order of strings *)

Lemma ltb_compare (a b : string) : String.ltb a b = true <-> String.compare a b = Lt.
Proof. unfold String.ltb. destruct (String.compare a b); intuition discriminate. Qed.

Lemma ltb_asym (a b : string) : String.ltb a b = true -> String.ltb b a = false.
Proof.
  unfold String.ltb. rewrite (String.compare_antisym b a).
  by destruct (String.compare a b).
Qed.

Lemma ltb_false_le (a b : string) : String.ltb b a = false <-> String.le a b.
Proof.
  unfold String.le, String.leb, String.ltb.
  rewrite (String.compare_antisym b a).
  destruct (String.compare a b); cbn; intuition (done || discriminate).
Qed.

Lemma ltb_le_trans (a b c : string) :
  String.ltb b a = false -> String.ltb c b = false -> String.ltb c a = false.
Proof. rewrite !ltb_false_le. intros. by etrans. Qed.

Lemma ltb_irrefl (a : string) : String.ltb a a = false.
Proof. apply ltb_false_le. reflexivity. Qed.

Lemma ltb_total (a b : string) :
  String.ltb a b = false -> String.ltb b a = false -> a = b.
Proof. rewrite !ltb_false_le. intros. by apply (anti_symm String.le). Qed.

Lemma length_app (s1 s2 : string) :
  String.length (s1 +:+ s2) = (String.length s1 + String.length s2)%nat.
Proof.
  induction s1 as [|c s1 IH]; [reflexivity|].
  change (String c s1 +:+ s2) with (String c (s1 +:+ s2)).
  cbn [String.length]. by rewrite IH.
Qed.

Lemma string_app_assoc (s1 s2 s3 : string) : (s1 +:+ s2) +:+ s3 = s1 +:+ (s2 +:+ s3).
Proof.
  induction s1 as [|c s1 IH]; [reflexivity|].
  change (String c s1 +:+ s2) with (String c (s1 +:+ s2)).
  change (String c (s1 +:+ s2) +:+ s3) with (String c ((s1 +:+ s2) +:+ s3)).
  by rewrite IH.
Qed.

(** ** [dump] *)

Lemma foldl_max_spec (l : list nat) (a : nat) :
  (a <= foldl Nat.max a l)%nat /\
  (forall n, n ∈ l -> (n <= foldl Nat.max a l)%nat) /\
  (foldl Nat.max a l = a \/ foldl Nat.max a l ∈ l).
Proof.
  revert a. induction l as [|m l IH]; intros a; cbn.
  - split; [lia|]. split; [|by left]. intros n Hn. by apply elem_of_nil in Hn.
  - destruct (IH (Nat.max a m)) as (Hge & Hall & Hin).
    split; [lia|]. split.
    + intros n [->|Hn]%elem_of_cons; [lia | by apply Hall].
    + destruct Hin as [Heq|Hin]; [|right; by right].
      rewrite Heq. destruct (Nat.max_spec a m) as [[_ ->]|[_ ->]];
        [right; left | left]; reflexivity.
Qed.

Lemma max_len_spec (keys : list string) :
  keys <> [] ->
  exists longest,
    max_len keys = Returned longest /\
    (forall k, k ∈ keys -> (String.length k <= longest)%nat) /\
    (exists k, k ∈ keys /\ String.length k = longest).
Proof.
  destruct keys as [|k keys]; [done|]. intros _.
  destruct (foldl_max_spec (map String.length keys) (String.length k))
    as (Hge & Hall & Hin).
  eexists. split; [reflexivity|]. split.
  - intros k' [->|Hk']%elem_of_cons; [done|].
    apply Hall. apply list_elem_of_fmap. by exists k'.
  - destruct Hin as [Heq|Hin].
    + exists k. split; [by left | done].
    + apply list_elem_of_fmap in Hin as (k' & Hlen & Hk').
      exists k'. split; [by right | done].
Qed.

Lemma dump_width_spec (longest : nat) :
  dump_width longest = (next_multiple_of_4_above longest + 3)%nat /\
  (longest < next_multiple_of_4_above longest)%nat /\
  (next_multiple_of_4_above longest <= longest + 4)%nat /\
  (next_multiple_of_4_above longest mod 4 = 0)%nat.
Proof.
  unfold dump_width, next_multiple_of_4_above.
  pose proof (Nat.div_mod_eq longest 4) as Hdiv.
  pose proof (Nat.mod_upper_bound longest 4) as Hmod.
  split; [lia|]. split; [lia|]. split; [lia|].
  apply Nat.Div0.mod_mul.
Qed.

Lemma dump_line_spec (width : nat) (k : string) (v : value) :
  dump_line width (k, v)
  = k +:+ ":" +:+ spaces (width - S (String.length k)) +:+ str v.
Proof.
  unfold dump_line, format_width. cbn [fst snd].
  rewrite length_app, !string_app_assoc. cbn [String.length].
  by rewrite Nat.add_1_r.
Qed.

Lemma item_lt_asym (a b : string * value) : item_lt a b = true -> item_lt b a = false.
Proof. apply ltb_asym. Qed.

Lemma item_le_trans (a b c : string * value) :
  item_lt b a = false -> item_lt c b = false -> item_lt c a = false.
Proof. apply ltb_le_trans. Qed.

Lemma sorted_items_strict (l : list (string * value)) :
  StronglySorted (fun a b => item_lt b a = false) l ->
  NoDup l.*1 ->
  StronglySorted (fun a b => String.ltb a.1 b.1 = true) l.
Proof.
  induction 1 as [|x l Hl IH Hx]; [constructor|].
  rewrite fmap_cons. intros [Hnotin Hnodup]%NoDup_cons.
  constructor; [by apply IH|].
  rewrite Forall_forall in Hx. apply Forall_forall. intros y Hy.
  destruct (String.ltb x.1 y.1) eqn:Hxy; [done|].
  exfalso. apply Hnotin.
  rewrite (ltb_total x.1 y.1 Hxy (Hx y Hy)).
  apply list_elem_of_fmap. by exists y.
Qed.

(** C6, as the code has it: for a document with at least one field,
    [dump] renders one line per field, the lines sorted by key, each
    line being the key, a colon, spaces up to the column
    [dump_width longest] and the value; that column is three more than
    the next multiple of 4 above the longest key length, which leaves
    at least three spaces after every colon. The document
    [{"title": "Hello World"}] gives [title:     Hello World]. *)
Theorem dump_spec :
  (forall document : Document,
     fields document <> ∅ ->
     exists (longest : nat) (items : list (string * value)),
       (forall k, is_Some (fields document !! k) -> (String.length k <= longest)%nat) /\
       (exists k, is_Some (fields document !! k) /\ String.length k = longest) /\
       items ≡ₚ map_to_list (fields document) /\
       length items = size (fields document) /\
       StronglySorted (fun a b => String.ltb a.1 b.1 = true) items /\
       dump document
       = Returned
           (join (String (ascii_of_N 10) EmptyString)
              (map (fun item =>
                      item.1 +:+ ":"
                      +:+ spaces (dump_width longest - S (String.length item.1))
                      +:+ str item.2)
                 items)) /\
       dump_width longest = (next_multiple_of_4_above longest + 3)%nat /\
       (forall item, item ∈ items ->
          (3 <= dump_width longest - S (String.length item.1))%nat)) /\
  dump (from_data {[ "title" := VStr "Hello World" ]})
  = Returned "title:     Hello World".
Proof.
  split; [|vm_compute; reflexivity].
  intros document Hne.
  assert (Hkeys : (map_to_list (fields document)).*1 <> []).
  { intros Hnil. apply fmap_nil_inv in Hnil.
    by apply map_to_list_empty_iff in Hnil. }
  destruct (max_len_spec _ Hkeys) as (longest & Hmax & Hall & k0 & Hk0 & Hlen0).
  assert (Hdom : forall k, is_Some (fields document !! k) <->
                           k ∈ (map_to_list (fields document)).*1).
  { intros k. rewrite list_elem_of_fmap. split.
    - intros [v Hv]. exists (k, v). split; [done|]. by apply elem_of_map_to_list.
    - intros ([k' v] & -> & Hkv). exists v. by apply elem_of_map_to_list. }
  pose proof (stable_sort_perm item_lt (map_to_list (fields document))) as Hperm.
  exists longest, (stable_sort item_lt (map_to_list (fields document))).
  split_and!.
  - intros k Hk. apply Hall. by apply Hdom.
  - exists k0. split; [by apply Hdom | done].
  - exact Hperm.
  - by rewrite Hperm, length_map_to_list.
  - apply sorted_items_strict.
    + apply stable_sort_sorted; [apply item_lt_asym | apply item_le_trans].
    + rewrite Hperm. apply NoDup_fst_map_to_list.
  - unfold dump. change (map fst) with (fmap (M:=list) (@fst string value)).
    rewrite Hmax. cbn [mbind outcome_bind bind sorted]. do 2 f_equal.
    apply map_ext. intros [k v]. apply dump_line_spec.
  - apply dump_width_spec.
  - intros [k v] Hitem. rewrite Hperm in Hitem. cbn [fst].
    assert (Hk : (String.length k <= longest)%nat).
    { apply Hall. apply list_elem_of_fmap. by exists (k, v). }
    destruct (dump_width_spec longest) as (-> & Hlt & _). lia.
Qed.

Lemma dump_spec_witness :
  fields (from_data {[ "title" := VStr "Hello World"; "year" := VInt 2020 ]}) <> ∅ /\
  exists (longest : nat) (items : list (string * value)),
    dump (from_data {[ "title" := VStr "Hello World"; "year" := VInt 2020 ]})
    = Returned
        (join (String (ascii_of_N 10) EmptyString)
           (map (fun item =>
                   item.1 +:+ ":"
                   +:+ spaces (dump_width longest - S (String.length item.1))
                   +:+ str item.2)
              items)) /\
    StronglySorted (fun a b => String.ltb a.1 b.1 = true) items.
Proof.
  assert (Hne : fields (from_data {[ "title" := VStr "Hello World"; "year" := VInt 2020 ]})
                <> ∅).
  { intros Hempty.
    apply (f_equal (fun m : gmap string value => m !! "title")) in Hempty.
    discriminate Hempty. }
  split; [exact Hne|].
  destruct (proj1 dump_spec _ Hne)
    as (longest & items & _ & _ & _ & _ & Hsorted & Hdump & _).
  exists longest, items. split; [exact Hdump | exact Hsorted].
Defined.

(** The specification's column, the next multiple of 4 above the longest
    key length, is not the one of the code: for the key [title], of
    length 5, it is 8, and the value would follow two spaces after the
    colon; the code pads to column 11, five spaces after the colon. *)
Lemma dump_not_as_specified :
  dump (from_data {[ "title" := VStr "Hello World" ]})
  = Returned "title:     Hello World" /\
  dump_as_specified (from_data {[ "title" := VStr "Hello World" ]})
  = Returned "title:  Hello World" /\
  dump (from_data {[ "title" := VStr "Hello World" ]})
  <> dump_as_specified (from_data {[ "title" := VStr "Hello World" ]}) /\
  dump_width (String.length "title")
  <> next_multiple_of_4_above (String.length "title").
Proof.
  split; [vm_compute; reflexivity|]. split; [vm_compute; reflexivity|].
  split; vm_compute; discriminate.
Qed.

(** ** Key conversion *)

Section ConversionFacts.
Variable data : gmap string value.

Lemma rule_raises_value fk c exc :
  rule_raises fk data c exc -> rule_value fk data c = VNone.
Proof.
  intros (act & Hact & Hraise). unfold rule_value. by rewrite Hact, Hraise.
Qed.

Lemma convert_one_raises fk m log c exc :
  rule_raises fk data c exc ->
  convert_one fk data (m, log) c = (m, log ++ [parse_error_record fk c exc]).
Proof.
  intros (act & Hact & Hraise). unfold convert_one.
  rewrite Hact, Hraise. reflexivity.
Qed.

Lemma convert_one_data fk m log c :
  (convert_one fk data (m, log) c).1 =
  if truthy (rule_value fk data c)
  then <[papis_key_of fk c := rule_value fk data c]> m
  else m.
Proof.
  unfold convert_one, rule_value.
  destruct (action c) as [act|]; [destruct (act _) as [v|e]|];
    repeat case_match; simplify_eq/=; reflexivity.
Qed.

Lemma convert_one_log fk m log c :
  exists l, (convert_one fk data (m, log) c).2 = log ++ l.
Proof.
  unfold convert_one.
  destruct (action c) as [act|]; [destruct (act _) as [v|e]|];
    repeat case_match; simplify_eq/=;
    first [by exists [] ; rewrite app_nil_r | by eexists].
Qed.

Lemma foldl_convert_one_fst fk l m log1 log2 :
  (foldl (convert_one fk data) (m, log1) l).1
  = (foldl (convert_one fk data) (m, log2) l).1.
Proof.
  revert m log1 log2. induction l as [|c l IH]; intros m log1 log2; [reflexivity|].
  cbn [foldl].
  pose proof (convert_one_data fk m log1 c) as H1.
  pose proof (convert_one_data fk m log2 c) as H2.
  destruct (convert_one fk data (m, log1) c) as [m1 l1].
  destruct (convert_one fk data (m, log2) c) as [m2 l2].
  cbn in H1, H2. subst m1 m2. apply IH.
Qed.

Lemma foldl_convert_one_log fk l m log :
  exists l', (foldl (convert_one fk data) (m, log) l).2 = log ++ l'.
Proof.
  revert m log. induction l as [|c l IH]; intros m log; cbn [foldl].
  - exists []. by rewrite app_nil_r.
  - destruct (convert_one_log fk m log c) as [l1 Hl1].
    destruct (convert_one fk data (m, log) c) as [m1 log1]. cbn in Hl1. subst log1.
    destruct (IH m1 (log ++ l1)) as [l2 ->].
    exists (l1 ++ l2). by rewrite app_assoc.
Qed.

Lemma convert_pair_fst m log1 log2 p :
  (convert_pair data (m, log1) p).1 = (convert_pair data (m, log2) p).1.
Proof.
  unfold convert_pair. destruct (data !! foreign_key p); [|reflexivity].
  apply foldl_convert_one_fst.
Qed.

Lemma convert_pair_log m log p :
  exists l, (convert_pair data (m, log) p).2 = log ++ l.
Proof.
  unfold convert_pair. destruct (data !! foreign_key p).
  - apply foldl_convert_one_log.
  - exists []. by rewrite app_nil_r.
Qed.

Lemma foldl_convert_pair_fst l m log1 log2 :
  (foldl (convert_pair data) (m, log1) l).1
  = (foldl (convert_pair data) (m, log2) l).1.
Proof.
  revert m log1 log2. induction l as [|p l IH]; intros m log1 log2; [reflexivity|].
  cbn [foldl].
  pose proof (convert_pair_fst m log1 log2 p) as Hfst.
  destruct (convert_pair data (m, log1) p) as [m1 l1].
  destruct (convert_pair data (m, log2) p) as [m2 l2].
  cbn in Hfst. subst m2. apply IH.
Qed.

Lemma foldl_convert_pair_log l m log :
  exists l', (foldl (convert_pair data) (m, log) l).2 = log ++ l'.
Proof.
  revert m log. induction l as [|p l IH]; intros m log; cbn [foldl].
  - exists []. by rewrite app_nil_r.
  - destruct (convert_pair_log m log p) as [l1 Hl1].
    destruct (convert_pair data (m, log) p) as [m1 log1]. cbn in Hl1. subst log1.
    destruct (IH m1 (log ++ l1)) as [l2 ->].
    exists (l1 ++ l2). by rewrite app_assoc.
Qed.

(** A key that no rule writes stays absent. *)
Lemma foldl_convert_one_lookup_None fk l m log k :
  m !! k = None ->
  (forall c, c ∈ l -> papis_key_of fk c = k -> truthy (rule_value fk data c) = false) ->
  (foldl (convert_one fk data) (m, log) l).1 !! k = None.
Proof.
  revert m log. induction l as [|c l IH]; intros m log Hm Hl; [done|].
  cbn [foldl].
  pose proof (convert_one_data fk m log c) as Hone.
  destruct (convert_one fk data (m, log) c) as [m1 log1]. cbn in Hone. subst m1.
  apply IH; [|intros c' Hc'; apply Hl; by right].
  destruct (truthy (rule_value fk data c)) eqn:Htruthy; [|done].
  rewrite lookup_insert_ne; [done|].
  intros Hk. rewrite (Hl c) in Htruthy; [done | by left | done].
Qed.

Lemma foldl_convert_pair_lookup_None l m log k :
  m !! k = None ->
  (forall p c, p ∈ l -> c ∈ conv_list p -> is_Some (data !! foreign_key p) ->
     papis_key_of (foreign_key p) c = k ->
     truthy (rule_value (foreign_key p) data c) = false) ->
  (foldl (convert_pair data) (m, log) l).1 !! k = None.
Proof.
  revert m log. induction l as [|p l IH]; intros m log Hm Hl; [done|].
  cbn [foldl].
  assert (Hone : (convert_pair data (m, log) p).1 !! k = None).
  { unfold convert_pair. destruct (data !! foreign_key p) as [v|] eqn:Hv; [|done].
    apply foldl_convert_one_lookup_None; [done|].
    intros c Hc Hk. apply (Hl p c); [by left | done | by rewrite Hv | done]. }
  destruct (convert_pair data (m, log) p) as [m1 log1].
  apply IH; [done|]. intros p' c Hp'. apply Hl. by right.
Qed.

Lemma lookup_copy_unknown_keys conversions m k :
  copy_unknown_keys conversions data m !! k =
  if decide (k ∈ map foreign_key conversions) then m !! k
  else match data !! k with
       | Some v => Some v
       | None => m !! k
       end.
Proof.
  unfold copy_unknown_keys. revert k.
  apply (map_fold_weak_ind
    (fun r (d : gmap string value) => forall k,
       r !! k = if decide (k ∈ map foreign_key conversions) then m !! k
                else match d !! k with Some v => Some v | None => m !! k end)).
  - intros k. rewrite lookup_empty. by case_decide.
  - intros i x d r Hi IH k. case_bool_decide as Hfk.
    + rewrite IH. case_decide as Hk; [done|].
      rewrite lookup_insert_ne; [done|]. by intros ->.
    + destruct (decide (i = k)) as [->|Hne].
      * rewrite !lookup_insert_eq. by rewrite decide_False.
      * rewrite !lookup_insert_ne by done. apply IH.
Qed.

(** The rules of a pair with one raising rule taken out give the same
    data, and the rule leaves its debug record. *)
Lemma foldl_convert_pair_without pre post fk r1 bad r2 exc m log :
  is_Some (data !! fk) ->
  rule_raises fk data bad exc ->
  (foldl (convert_pair data) (m, log)
     (pre ++ mkKeyConversionPair fk (r1 ++ bad :: r2) :: post)).1
  = (foldl (convert_pair data) (m, log)
       (pre ++ mkKeyConversionPair fk (r1 ++ r2) :: post)).1 /\
  parse_error_record fk bad exc ∈
    (foldl (convert_pair data) (m, log)
       (pre ++ mkKeyConversionPair fk (r1 ++ bad :: r2) :: post)).2.
Proof.
  intros [v Hv] Hraise. rewrite !foldl_app. cbn [foldl].
  destruct (foldl (convert_pair data) (m, log) pre) as [m1 log1].
  unfold convert_pair at 2 4 6. cbn [foreign_key conv_list]. rewrite Hv.
  rewrite !foldl_app. cbn [foldl].
  destruct (foldl (convert_one fk data) (m1, log1) r1) as [m2 log2].
  rewrite (convert_one_raises _ _ _ _ exc Hraise).
  pose proof (foldl_convert_one_fst fk r2 m2 (log2 ++ [parse_error_record fk bad exc]) log2)
    as Hfst.
  destruct (foldl_convert_one_log fk r2 m2 (log2 ++ [parse_error_record fk bad exc]))
    as [l3 Hl3].
  destruct (foldl (convert_one fk data) (m2, log2 ++ _) r2) as [m3 log3].
  destruct (foldl (convert_one fk data) (m2, log2) r2) as [m3' log3'].
  cbn in Hfst, Hl3. subst m3' log3.
  split; [apply foldl_convert_pair_fst|].
  destruct (foldl_convert_pair_log post m3 ((log2 ++ [parse_error_record fk bad exc]) ++ l3))
    as [l4 ->].
  rewrite !elem_of_app, list_elem_of_singleton. auto.
Qed.
End ConversionFacts.

Section Conversion.
Variable getstring : string -> outcome (option string).
Variable format_au : string -> value -> outcome string.

Lemma keyconversion_to_data_fst conversions data keep :
  (keyconversion_to_data getstring format_au conversions data keep).1 =
  match converted_data conversions data keep !! "author_list" with
  | Some _ =>
      author ← author_list_to_author getstring format_au
                 (converted_data conversions data keep);
      Returned (<["author" := VStr author]> (converted_data conversions data keep))
  | None => Returned (converted_data conversions data keep)
  end.
Proof.
  unfold keyconversion_to_data, converted_data.
  destruct (foldl (convert_pair data) (∅, []) conversions) as [new_data log].
  cbn [fst]. by case_match.
Qed.

Lemma keyconversion_to_data_snd conversions data keep :
  (keyconversion_to_data getstring format_au conversions data keep).2 =
  (foldl (convert_pair data) (∅, []) conversions).2.
Proof.
  unfold keyconversion_to_data.
  destruct (foldl (convert_pair data) (∅, []) conversions) as [new_data log].
  cbn [snd]. by case_match.
Qed.

Lemma author_list_to_author_insert data author :
  author_list_to_author getstring format_au (<["author" := VStr author]> data)
  = author_list_to_author getstring format_au data.
Proof. unfold author_list_to_author. by rewrite lookup_insert_ne. Qed.

Lemma author_list_to_author_inv data author :
  is_Some (data !! "author_list") ->
  author_list_to_author getstring format_au data = Returned author ->
  exists author_list separator fmt authors formatted,
    data !! "author_list" = Some author_list /\
    getstring "multiple-authors-separator" = Returned (Some separator) /\
    getstring "multiple-authors-format" = Returned (Some fmt) /\
    iterate author_list = Returned authors /\
    comprehension (format_au fmt) authors = Returned formatted /\
    author = join separator formatted.
Proof.
  intros [author_list Hlist]. unfold author_list_to_author. rewrite Hlist.
  destruct (getstring "multiple-authors-separator") as [[separator|]|] eqn:Hsep;
    cbn; try discriminate;
    destruct (getstring "multiple-authors-format") as [[fmt|]|] eqn:Hfmt;
    cbn; try discriminate.
  destruct (iterate author_list) as [authors|] eqn:Hiter; cbn; [|discriminate].
  destruct (comprehension (format_au fmt) authors) as [formatted|] eqn:Hformatted;
    cbn; [|discriminate].
  intros [= <-]. by exists author_list, separator, fmt, authors, formatted.
Qed.

(** C4: when the result of the conversion holds ["author_list"], its
    ["author"] is the string that [author_list_to_author] gives for
    the result: every item of the list formatted with the setting
    [multiple-authors-format] and the strings joined with the setting
    [multiple-authors-separator]; whatever the rules wrote under
    ["author"] is replaced. *)
Theorem keyconversion_author_list conversions data keep res :
  (keyconversion_to_data getstring format_au conversions data keep).1 = Returned res ->
  is_Some (res !! "author_list") ->
  exists author author_list separator fmt authors formatted,
    res !! "author" = Some (VStr author) /\
    author_list_to_author getstring format_au res = Returned author /\
    res !! "author_list" = Some author_list /\
    getstring "multiple-authors-separator" = Returned (Some separator) /\
    getstring "multiple-authors-format" = Returned (Some fmt) /\
    iterate author_list = Returned authors /\
    comprehension (format_au fmt) authors = Returned formatted /\
    author = join separator formatted.
Proof.
  rewrite keyconversion_to_data_fst. intros Hres Hlist.
  destruct (converted_data conversions data keep !! "author_list") as [al|] eqn:Hal.
  - destruct (author_list_to_author getstring format_au
                (converted_data conversions data keep)) as [author|e] eqn:Hauthor;
      cbn in Hres; [|discriminate].
    injection Hres as <-.
    assert (Hjoin : author_list_to_author getstring format_au
              (<["author" := VStr author]> (converted_data conversions data keep))
            = Returned author) by (by rewrite author_list_to_author_insert).
    destruct (author_list_to_author_inv _ _ Hlist Hjoin)
      as (author_list & separator & fmt & authors & formatted & H).
    exists author, author_list, separator, fmt, authors, formatted.
    split; [apply lookup_insert_eq|]. split; [exact Hjoin | exact H].
  - injection Hres as <-. rewrite Hal in Hlist. by destruct Hlist.
Qed.

(** The only exceptions that leave the conversion are those of the
    author join. *)
Lemma keyconversion_to_data_raised conversions data keep e :
  (keyconversion_to_data getstring format_au conversions data keep).1 = Raised e ->
  is_Some (converted_data conversions data keep !! "author_list") /\
  author_list_to_author getstring format_au (converted_data conversions data keep)
  = Raised e.
Proof.
  rewrite keyconversion_to_data_fst.
  destruct (converted_data conversions data keep !! "author_list") as [al|];
    [|discriminate].
  destruct (author_list_to_author _ _ _) as [author|e']; cbn; [discriminate|].
  intros [= <-]. split; [by eexists | done].
Qed.

Lemma converted_data_without pre post fk r1 bad r2 data keep exc :
  is_Some (data !! fk) ->
  rule_raises fk data bad exc ->
  converted_data (pre ++ mkKeyConversionPair fk (r1 ++ bad :: r2) :: post) data keep
  = converted_data (pre ++ mkKeyConversionPair fk (r1 ++ r2) :: post) data keep.
Proof.
  intros Hfk Hraise. unfold converted_data, copy_unknown_keys.
  rewrite (proj1 (foldl_convert_pair_without data pre post fk r1 bad r2 exc ∅ []
                    Hfk Hraise)).
  by rewrite !map_app.
Qed.

Lemma converted_data_lookup_None conversions data keep k :
  (forall p c, p ∈ conversions -> c ∈ conv_list p -> is_Some (data !! foreign_key p) ->
     papis_key_of (foreign_key p) c = k ->
     truthy (rule_value (foreign_key p) data c) = false) ->
  (keep = true -> data !! k = None \/ k ∈ map foreign_key conversions) ->
  converted_data conversions data keep !! k = None.
Proof.
  intros Hrules Hkeep.
  assert (Hloops : (foldl (convert_pair data) (∅, []) conversions).1 !! k = None)
    by (by apply foldl_convert_pair_lookup_None).
  unfold converted_data. destruct keep; [|done].
  rewrite lookup_copy_unknown_keys. case_decide as Hfk; [done|].
  destruct (Hkeep eq_refl) as [-> | Hin]; done.
Qed.

(** C3, as the code has it: a rule whose action raises on the foreign
    value changes nothing but the log. The outcome of the conversion
    is the one of the conversion without the rule, so the other rules
    and keys are converted as they would be; the exception is in a
    debug record of the log and an exception that leaves the
    conversion is one of the author join, never the action's; and the
    target key of the rule is absent from the result unless another
    rule writes it, or the copy of the unknown keys does, or it is
    ["author"] and the result holds ["author_list"]. *)
Theorem keyconversion_rule_raises pre post fk r1 bad r2 data keep exc :
  is_Some (data !! fk) ->
  rule_raises fk data bad exc ->
  let conversions := pre ++ mkKeyConversionPair fk (r1 ++ bad :: r2) :: post in
  let without := pre ++ mkKeyConversionPair fk (r1 ++ r2) :: post in
  let result := keyconversion_to_data getstring format_au conversions data keep in
  result.1 = (keyconversion_to_data getstring format_au without data keep).1 /\
  (parse_error_record fk bad exc ∈ result.2 /\
   level (parse_error_record fk bad exc) = DEBUG) /\
  (forall e, result.1 = Raised e ->
     author_list_to_author getstring format_au (converted_data without data keep)
     = Raised e) /\
  (forall res,
     result.1 = Returned res ->
     (forall p c, p ∈ without -> c ∈ conv_list p -> is_Some (data !! foreign_key p) ->
        papis_key_of (foreign_key p) c = papis_key_of fk bad ->
        truthy (rule_value (foreign_key p) data c) = false) ->
     (keep = true ->
      data !! papis_key_of fk bad = None \/
      papis_key_of fk bad ∈ map foreign_key conversions) ->
     (papis_key_of fk bad = "author" -> res !! "author_list" = None) ->
     res !! papis_key_of fk bad = None).
Proof.
  intros Hfk Hraise conversions without result.
  assert (Hdata : converted_data conversions data keep
                  = converted_data without data keep)
    by (by eapply converted_data_without).
  split_and!.
  - unfold result. by rewrite !keyconversion_to_data_fst, Hdata.
  - unfold result. rewrite keyconversion_to_data_snd.
    by eapply foldl_convert_pair_without.
  - reflexivity.
  - intros e He. rewrite <- Hdata. by apply keyconversion_to_data_raised.
  - intros res Hres Hrules Hkeep Hauthor.
    assert (Hnone : converted_data conversions data keep !! papis_key_of fk bad = None).
    { rewrite Hdata. apply converted_data_lookup_None; [exact Hrules|].
      intros Hk. destruct (Hkeep Hk) as [?|Hin]; [by left|right].
      unfold conversions, without in *. by rewrite map_app in *. }
    unfold result in Hres. rewrite keyconversion_to_data_fst in Hres.
    destruct (converted_data conversions data keep !! "author_list") as [al|] eqn:Hal.
    + destruct (author_list_to_author _ _ _) as [author|e]; cbn in Hres; [|discriminate].
      injection Hres as <-.
      destruct (decide (papis_key_of fk bad = "author")) as [Heq|Hne].
      * specialize (Hauthor Heq). rewrite lookup_insert_ne in Hauthor by done.
        congruence.
      * by rewrite lookup_insert_ne.
    + by injection Hres as <-.
Qed.
End Conversion.

Lemma keyconversion_author_list_witness :
  (keyconversion_to_data default_getstring format_au_fields
     renaming_conversions example_foreign_data false).1
  = Returned {[ "author_list" := VList [author1; author2];
                "author" := VStr "Author, Some and Author, Other" ]} /\
  exists author,
    ({[ "author_list" := VList [author1; author2];
        "author" := VStr "Author, Some and Author, Other" ]} : gmap string value)
      !! "author" = Some (VStr author) /\
    author_list_to_author default_getstring format_au_fields
      {[ "author_list" := VList [author1; author2];
         "author" := VStr "Author, Some and Author, Other" ]}
    = Returned author.
Proof.
  assert (Hres : (keyconversion_to_data default_getstring format_au_fields
                    renaming_conversions example_foreign_data false).1
                 = Returned {[ "author_list" := VList [author1; author2];
                               "author" := VStr "Author, Some and Author, Other" ]})
    by (vm_compute; reflexivity).
  split; [exact Hres|].
  destruct (keyconversion_author_list default_getstring format_au_fields
              renaming_conversions example_foreign_data false _ Hres)
    as (author & _ & _ & _ & _ & _ & Hauthor & Hjoin & _).
  - by eexists.
  - exists author. split; [exact Hauthor | exact Hjoin].
Defined.

(** Without the post-processing the rule's own value would stay: the
    conversion of the same data without the list keeps it. *)
Example keyconversion_author_kept :
  (keyconversion_to_data default_getstring format_au_fields
     renaming_conversions {[ "name" := VStr "S. Author" ]} false).1
  = Returned {[ "author" := VStr "S. Author" ]}.
Proof. vm_compute. reflexivity. Qed.

Lemma keyconversion_rule_raises_witness :
  is_Some (year_foreign_data !! "name") /\
  rule_raises "name" year_foreign_data author_rule (OtherException "ZeroDivisionError") /\
  (keyconversion_to_data default_getstring format_au_fields
     year_conversions year_foreign_data false).1
  = Returned {[ "year" := VStr "2020" ]} /\
  parse_error_record "name" author_rule (OtherException "ZeroDivisionError")
    ∈ (keyconversion_to_data default_getstring format_au_fields
         year_conversions year_foreign_data false).2 /\
  forall res,
    (keyconversion_to_data default_getstring format_au_fields
       year_conversions year_foreign_data false).1 = Returned res ->
    res !! "author" = None.
Proof.
  assert (Hsome : is_Some (year_foreign_data !! "name")) by (by eexists).
  assert (Hraise : rule_raises "name" year_foreign_data author_rule
                     (OtherException "ZeroDivisionError"))
    by (exists failing_action; split; reflexivity).
  destruct (keyconversion_rule_raises default_getstring format_au_fields
              [] [mkKeyConversionPair "year" [EmptyKeyConversion]]
              "name" [] author_rule [] year_foreign_data false
              (OtherException "ZeroDivisionError") Hsome Hraise)
    as (Hsame & [Hlog _] & _ & Habsent).
  assert (Hval : (keyconversion_to_data default_getstring format_au_fields
                    year_conversions year_foreign_data false).1
                 = Returned {[ "year" := VStr "2020" ]})
    by (vm_compute; reflexivity).
  split; [exact Hsome|]. split; [exact Hraise|].
  split; [exact Hval|]. split; [exact Hlog|].
  intros res Hres. apply (Habsent res Hres).
  - intros p c Hp Hc _ Hk. cbn in Hp.
    apply elem_of_cons in Hp as [->|Hp].
    + by apply elem_of_nil in Hc.
    + apply list_elem_of_singleton in Hp as ->.
      apply list_elem_of_singleton in Hc as ->. discriminate Hk.
  - discriminate.
  - intros _. pose proof (eq_trans (eq_sym Hval) Hres) as Heq.
    injection Heq as <-. reflexivity.
Defined.

(** The target key of a raising rule can be in the result without
    another rule or the copy of the unknown keys writing it: the rule
    for ["author"] raises, no other rule has that target, nothing is
    copied, and the post-processing of ["author_list"] writes
    ["author"]. *)
Lemma keyconversion_author_written :
  ~ (forall (getstring : string -> outcome (option string))
            (format_au : string -> value -> outcome string)
            pre post fk r1 bad r2 data keep exc res,
       is_Some (data !! fk) ->
       rule_raises fk data bad exc ->
       (keyconversion_to_data getstring format_au
          (pre ++ mkKeyConversionPair fk (r1 ++ bad :: r2) :: post) data keep).1
       = Returned res ->
       (forall p c, p ∈ pre ++ mkKeyConversionPair fk (r1 ++ r2) :: post ->
          c ∈ conv_list p -> is_Some (data !! foreign_key p) ->
          papis_key_of (foreign_key p) c = papis_key_of fk bad ->
          truthy (rule_value (foreign_key p) data c) = false) ->
       (keep = true ->
        data !! papis_key_of fk bad = None \/
        papis_key_of fk bad
          ∈ map foreign_key (pre ++ mkKeyConversionPair fk (r1 ++ bad :: r2) :: post)) ->
       res !! papis_key_of fk bad = None).
Proof.
  intros Hclaim.
  specialize (Hclaim default_getstring format_au_fields
    [] [mkKeyConversionPair "authors" [ {| key := Some "author_list"; action := None |} ]]
    "name" [] author_rule [] example_foreign_data false
    (OtherException "ZeroDivisionError")
    {[ "author_list" := VList [author1; author2];
       "author" := VStr "Author, Some and Author, Other" ]}).
  assert (Hnone : ({[ "author_list" := VList [author1; author2];
                      "author" := VStr "Author, Some and Author, Other" ]}
                    : gmap string value) !! "author" = None).
  { apply Hclaim.
    - by eexists.
    - exists failing_action. split; reflexivity.
    - vm_compute. reflexivity.
    - intros p c Hp Hc _ Hk. cbn in Hp.
      apply elem_of_cons in Hp as [->|Hp].
      + by apply elem_of_nil in Hc.
      + apply list_elem_of_singleton in Hp as ->.
        apply list_elem_of_singleton in Hc as ->. discriminate Hk.
    - discriminate. }
  vm_compute in Hnone. discriminate Hnone.
Qed.

(** The same conversion, evaluated. *)
Example author_written_evaluated :
  keyconversion_to_data default_getstring format_au_fields
    example_conversions example_foreign_data false
  = (Returned {[ "author_list" := VList [author1; author2];
                 "author" := VStr "Author, Some and Author, Other" ]},
     [parse_error_record "name" author_rule (OtherException "ZeroDivisionError")]).
Proof. vm_compute. reflexivity. Qed.

(** ** Sorting documents *)

Ltac order_cases :=
  repeat match goal with
    | H : context [Z.eqb ?x ?y] |- _ => destruct (Z.eqb_spec x y); cbn [negb] in H
    | |- context [Z.eqb ?x ?y] => destruct (Z.eqb_spec x y); cbn [negb]
    | H : context [Z.ltb ?x ?y] |- _ => destruct (Z.ltb_spec x y)
    | |- context [Z.ltb ?x ?y] => destruct (Z.ltb_spec x y)
    end;
  subst; try done; try lia.

Lemma tuple_lt_asym (a b : sort_key) : tuple_lt a b = true -> tuple_lt b a = false.
Proof.
  destruct a as [[[p1 d1] i1] s1], b as [[[p2 d2] i2] s2]. unfold tuple_lt.
  intros H. order_cases. by apply ltb_asym.
Qed.

Lemma tuple_le_trans (a b c : sort_key) :
  tuple_lt b a = false -> tuple_lt c b = false -> tuple_lt c a = false.
Proof.
  destruct a as [[[p1 d1] i1] s1], b as [[[p2 d2] i2] s2], c as [[[p3 d3] i3] s3].
  unfold tuple_lt. intros H1 H2. order_cases. by eapply ltb_le_trans.
Qed.

Lemma tuple_lt_irrefl (a : sort_key) : tuple_lt a a = false.
Proof.
  destruct a as [[[p d] i] s]. unfold tuple_lt. order_cases. apply ltb_irrefl.
Qed.

Lemma StronglySorted_mono {A} (R1 R2 : relation A) (l : list A) :
  (forall x y, R1 x y -> R2 x y) -> StronglySorted R1 l -> StronglySorted R2 l.
Proof.
  intros HR. induction 1 as [|x l Hl IH Hx]; constructor; [done|].
  eapply Forall_impl; [exact Hx | intros y; apply HR].
Qed.

Section SortFacts.
Variable strptime : string -> string -> option datetime.
Variable epoch : datetime.
Variable key : string.

Local Abbreviation sort_key_of r := (document_sort_key strptime epoch key r).
Local Abbreviation category := (sort_category strptime epoch key).

(** Under [reverse] the key differs by the sign of its priority, and
    by nothing else. *)
Lemma document_sort_key_reverse (doc : Document) :
  sort_key_of true doc =
  (let '(priority, date, int_value, str_value) := sort_key_of false doc in
   (- priority, date, int_value, str_value)) /\
  (sort_key_of false doc).1.1.1 = category doc.
Proof.
  unfold document_sort_key, sort_category.
  by destruct (document_sort_fields strptime epoch key doc) as [[[p d] i] s].
Qed.

(** Descending by the key with the negated priority is ascending by
    category and descending by the rest of the key. *)
Lemma tuple_lt_reverse (a b : Document) :
  tuple_lt (sort_key_of true a) (sort_key_of true b) = false ->
  category a < category b \/
  (category a = category b /\
   tuple_lt (sort_key_of false a) (sort_key_of false b) = false).
Proof.
  unfold document_sort_key, sort_category.
  destruct (document_sort_fields strptime epoch key a) as [[[p1 d1] i1] s1].
  destruct (document_sort_fields strptime epoch key b) as [[[p2 d2] i2] s2].
  cbn [fst]. unfold tuple_lt. intros H.
  destruct (Z.eq_dec (priority_value p1) (priority_value p2)) as [Heq|Hne].
  - right. split; [done|]. rewrite Heq in *. rewrite Z.eqb_refl in *. exact H.
  - left. order_cases.
Qed.

Lemma tuple_lt_category (a b : Document) :
  tuple_lt (sort_key_of false b) (sort_key_of false a) = false ->
  category a <= category b.
Proof.
  unfold document_sort_key, sort_category.
  destruct (document_sort_fields strptime epoch key a) as [[[p1 d1] i1] s1].
  destruct (document_sort_fields strptime epoch key b) as [[[p2 d2] i2] s2].
  cbn [fst]. unfold tuple_lt. intros H. order_cases.
Qed.

Lemma sort_forward_sorted (docs : list Document) :
  StronglySorted
    (fun a b => tuple_lt (sort_key_of false b) (sort_key_of false a) = false)
    (sort strptime epoch docs key false).1.
Proof.
  apply (stable_sort_sorted
           (fun a b => tuple_lt (sort_key_of false a) (sort_key_of false b))).
  - intros a b. apply tuple_lt_asym.
  - intros a b c. apply tuple_le_trans.
Qed.

Lemma sort_reverse_sorted (docs : list Document) :
  StronglySorted
    (fun a b =>
       category a < category b \/
       (category a = category b /\
        tuple_lt (sort_key_of false a) (sort_key_of false b) = false))
    (sort strptime epoch docs key true).1.
Proof.
  eapply StronglySorted_mono; [apply tuple_lt_reverse|].
  apply (sorted_reverse_sorted
           (fun a b => tuple_lt (sort_key_of true a) (sort_key_of true b))).
  - intros a b. apply tuple_lt_asym.
  - intros a b c. apply tuple_le_trans.
Qed.

Lemma sort_perm (docs : list Document) (reverse : bool) :
  (sort strptime epoch docs key reverse).1 ≡ₚ docs.
Proof. apply sorted_perm. Qed.

Lemma sort_categories (docs : list Document) :
  category <$> (sort strptime epoch docs key true).1
  = category <$> (sort strptime epoch docs key false).1.
Proof.
  apply (StronglySorted_unique Z.le).
  - eapply StronglySorted_fmap; [|apply sort_reverse_sorted].
    intros a b [?|[? _]]; lia.
  - eapply StronglySorted_fmap; [|apply sort_forward_sorted].
    intros a b. apply tuple_lt_category.
  - by rewrite !sort_perm.
Qed.

Lemma sort_stable (docs : list Document) (reverse : bool) (k : sort_key) :
  filter (fun doc => sort_key_of reverse doc = k)
    (sort strptime epoch docs key reverse).1
  = filter (fun doc => sort_key_of reverse doc = k) docs.
Proof.
  apply (sorted_filter
           (fun a b => tuple_lt (sort_key_of reverse a) (sort_key_of reverse b))).
  intros x y -> ->. apply tuple_lt_irrefl.
Qed.
End SortFacts.

(** C1, as the code has it: under [reverse=True] the sort key differs
    from the one of [reverse=False] by the sign of its priority only,
    and [sorted] is called with [reverse=True] too, so the result
    descends by that key. It is a permutation of the documents with the
    categories in the same order as under [reverse=False] (dates, then
    integers, then other values, then documents without the key), the
    documents of one category descend by date, integer and string, and
    documents with equal keys keep their input order. *)
Theorem sort_reverse_spec
    (strptime : string -> string -> option datetime) (epoch : datetime)
    (docs : list Document) (key : string) :
  let result := (sort strptime epoch docs key true).1 in
  (forall doc,
     document_sort_key strptime epoch key true doc =
     (let '(priority, date, int_value, str_value) :=
        document_sort_key strptime epoch key false doc in
      (- priority, date, int_value, str_value))) /\
  result ≡ₚ docs /\
  sort_category strptime epoch key <$> result
  = sort_category strptime epoch key <$> (sort strptime epoch docs key false).1 /\
  StronglySorted
    (fun a b =>
       sort_category strptime epoch key a < sort_category strptime epoch key b \/
       (sort_category strptime epoch key a = sort_category strptime epoch key b /\
        tuple_lt (document_sort_key strptime epoch key false a)
                 (document_sort_key strptime epoch key false b) = false))
    result /\
  (forall k,
     filter (fun doc => document_sort_key strptime epoch key true doc = k) result
     = filter (fun doc => document_sort_key strptime epoch key true doc = k) docs).
Proof.
  intros result. split_and!.
  - intros doc. apply document_sort_key_reverse.
  - apply sort_perm.
  - apply sort_categories.
  - apply sort_reverse_sorted.
  - intros k. apply sort_stable.
Qed.

(** X14: under [reverse=False] the result is a permutation of the
    documents that ascends by the sort key, and it is stable: documents
    with equal keys keep their input order. *)
Lemma sort_forward_spec
    (strptime : string -> string -> option datetime) (epoch : datetime)
    (docs : list Document) (key : string) :
  let result := (sort strptime epoch docs key false).1 in
  result ≡ₚ docs /\
  StronglySorted
    (fun a b =>
       tuple_lt (document_sort_key strptime epoch key false b)
                (document_sort_key strptime epoch key false a) = false)
    result /\
  (forall k,
     filter (fun doc => document_sort_key strptime epoch key false doc = k) result
     = filter (fun doc => document_sort_key strptime epoch key false doc = k) docs).
Proof.
  intros result. split_and!.
  - apply sort_perm.
  - apply sort_forward_sorted.
  - intros k. apply sort_stable.
Qed.

(** Sorting by ["year"] a document with the integer 2020, one without
    the key and one with the string 1999. Under [reverse=True] the code
    keeps the document without the key last and puts 2020 before 1999;
    ascending by the key with the negated priority, as the
    specification words it, would put the document without the key
    first and keep 1999 before 2020. *)
Lemma sort_reverse_not_as_specified :
  (sort example_strptime example_epoch [doc_2020; doc_untitled; doc_1999] "year" false).1
  = [doc_1999; doc_2020; doc_untitled] /\
  (sort example_strptime example_epoch [doc_2020; doc_untitled; doc_1999] "year" true).1
  = [doc_2020; doc_1999; doc_untitled] /\
  sort_as_specified example_strptime example_epoch
    [doc_2020; doc_untitled; doc_1999] "year" true
  = [doc_untitled; doc_1999; doc_2020] /\
  (sort example_strptime example_epoch [doc_2020; doc_untitled; doc_1999] "year" true).1
  <> sort_as_specified example_strptime example_epoch
       [doc_2020; doc_untitled; doc_1999] "year" true.
Proof.
  split_and!; [vm_compute; reflexivity ..|].
  vm_compute. discriminate.
Qed.

(** The keys of the three documents under [reverse=True]. *)
Example document_sort_key_examples :
  document_sort_key example_strptime example_epoch "year" true doc_2020
  = (-1, 0, 2020, "2020") /\
  document_sort_key example_strptime example_epoch "year" true doc_1999
  = (-1, 0, 1999, "1999") /\
  document_sort_key example_strptime example_epoch "year" true doc_untitled
  = (-3, 0, 0, EmptyString) /\
  document_sort_key example_strptime example_epoch "title" true doc_untitled
  = (-2, 0, 0, "Untitled").
Proof. split_and!; vm_compute; reflexivity. Qed.

(** * Further properties *)

(** ** Documents and dictionaries *)

(** X1: [to_dict] gives back exactly the fields of the document, the
    fall-back of [__missing__] adds no key and changes no value; so a
    document made by [from_data] converts back to the data it was made
    from. *)
Theorem to_dict_fields (document : Document) (data : gmap string value) :
  to_dict document = fields document /\ to_dict (from_data data) = data.
Proof.
  assert (Hfields : forall doc, to_dict doc = fields doc).
  { intros doc. apply map_eq. intros k. unfold to_dict.
    rewrite map_lookup_imap. unfold getitem.
    by destruct (fields doc !! k). }
  split; [apply Hfields|].
  rewrite Hfields. cbn. unfold update. apply (right_id ∅ (∪)).
Qed.

(** X2: [dump] of a document without fields raises [ValueError], the
    one of [max] on an empty sequence. *)
Theorem dump_empty (document : Document) :
  fields document = ∅ ->
  dump document = Raised (ValueError "max() arg is an empty sequence").
Proof.
  intros Hempty. unfold dump. rewrite Hempty, map_to_list_empty. reflexivity.
Qed.

Lemma dump_empty_witness :
  fields (from_data ∅) = ∅ /\
  dump (from_data ∅) = Raised (ValueError "max() arg is an empty sequence").
Proof.
  split; [reflexivity | apply dump_empty; reflexivity].
Defined.

(** X3: when the record file parses, [load] overlays its data on the
    fields: a key of the file has the file's value afterwards, every
    other field is kept, the folder and the paths are untouched and
    nothing is logged. *)
Theorem load_merges {disk : Type}
    (path_exists : disk -> string -> bool)
    (yaml_to_data : disk -> string -> outcome (gmap string value))
    (doc : Document) (d : disk) (data : gmap string value) :
  get_info_file doc <> EmptyString ->
  path_exists d (get_info_file doc) = true ->
  yaml_to_data d (get_info_file doc) = Returned data ->
  let loaded := load path_exists yaml_to_data doc d in
  loaded.2 = [] /\
  (forall k v, data !! k = Some v -> fields loaded.1 !! k = Some v) /\
  (forall k, data !! k = None -> fields loaded.1 !! k = fields doc !! k) /\
  get_main_folder loaded.1 = get_main_folder doc /\
  get_info_file loaded.1 = get_info_file doc.
Proof.
  intros Hne Hex Hyaml. unfold load.
  apply String.eqb_neq in Hne. rewrite Hne, Hex, Hyaml. cbn.
  split_and!; try reflexivity.
  - intros k v Hk. by rewrite lookup_update, Hk.
  - intros k Hk. by rewrite lookup_update, Hk.
Qed.

Lemma load_merges_witness :
  fields (load example_exists example_yaml_to_data
            (doc_in_folder {[ "title" := VStr "Hello World"; "year" := VInt 1999 ]})
            {[ "/lib/doc/info.yaml" := Returned {[ "year" := VInt 2020 ]} ]}).1
    !! "year" = Some (VInt 2020) /\
  fields (load example_exists example_yaml_to_data
            (doc_in_folder {[ "title" := VStr "Hello World"; "year" := VInt 1999 ]})
            {[ "/lib/doc/info.yaml" := Returned {[ "year" := VInt 2020 ]} ]}).1
    !! "title" = Some (VStr "Hello World").
Proof.
  destruct (load_merges example_exists example_yaml_to_data
              (doc_in_folder {[ "title" := VStr "Hello World"; "year" := VInt 1999 ]})
              {[ "/lib/doc/info.yaml" := Returned {[ "year" := VInt 2020 ]} ]}
              {[ "year" := VInt 2020 ]})
    as (_ & Hfile & Hkept & _); [discriminate | reflexivity | reflexivity |].
  split.
  - apply Hfile. reflexivity.
  - rewrite Hkept; reflexivity.
Defined.

(** ** The author join *)

(** X4: with an ["author_list"] in the data and one of the two settings
    not set, [author_list_to_author] raises the configuration error,
    whatever the list holds. *)
Theorem author_list_to_author_unconfigured
    (getstring : string -> outcome (option string))
    (format_au : string -> value -> outcome string)
    (data : gmap string value) (separator fmt : option string) :
  is_Some (data !! "author_list") ->
  getstring "multiple-authors-separator" = Returned separator ->
  getstring "multiple-authors-format" = Returned fmt ->
  separator = None \/ fmt = None ->
  exists msg,
    author_list_to_author getstring format_au data = Raised (ConfigurationError msg).
Proof.
  intros [author_list Hlist] Hsep Hfmt Hnone. unfold author_list_to_author.
  rewrite Hlist, Hsep, Hfmt. cbn.
  destruct Hnone as [-> | ->]; [|destruct separator]; by eexists.
Qed.

Lemma author_list_to_author_unconfigured_witness :
  exists msg,
    author_list_to_author unset_getstring format_au_fields
      {[ "author_list" := VInt 3 ]} = Raised (ConfigurationError msg).
Proof.
  apply (author_list_to_author_unconfigured unset_getstring format_au_fields
           {[ "author_list" := VInt 3 ]} None None);
    [by eexists | reflexivity | reflexivity | by left].
Defined.

(** ** The update pipeline *)

Section UpdateFacts.
Context {world : Type}.
Variable describe : Document -> string.
Variable fix_errors : Document -> Document.
Variable save_doc : Document -> world -> outcome world.
Variable add_and_commit_resource : string -> string -> string -> world -> outcome world.


(** X6: [run] without data, or with empty data, on a document in a
    folder leaves the fields as they are and still saves the document;
    without [git] nothing is committed. *)
Theorem run_without_data (st : state) (folder : string) (w : world) :
  get_main_folder (st_document st) = Some folder ->
  folder <> EmptyString ->
  get_info_file (st_document st) <> EmptyString ->
  save_doc (st_document st) (st_world st) = Returned w ->
  run describe fix_errors save_doc add_and_commit_resource None false false st
  = (Returned tt, mkState (st_document st) w (st_log st)) /\
  run describe fix_errors save_doc add_and_commit_resource (Some ∅) false false st
  = (Returned tt, mkState (st_document st) w (st_log st)).
Proof.
  intros Hfolder Hne Hinfo Hsave.
  assert (Hsame : with_fields (st_document st) (update (fields (st_document st)) ∅)
                  = st_document st).
  { unfold update. rewrite (left_id ∅ (∪)). by destruct (st_document st). }
  unfold run. rewrite Hfolder.
  apply String.eqb_neq in Hne, Hinfo. rewrite Hne, Hinfo.
  cbn. unfold update in *. by rewrite Hsame, Hsave.
Qed.

(** X8: a successful pass of the loop body of [cli] (no doctor, no
    git) leaves the document with exactly the merged data as its
    fields, and hands that document to [save_doc]. *)
Theorem cli_document_applies (set_data imported_data : gmap string value)
    (importer_names : list string) (st : state) (folder : string) (w : world) :
  get_main_folder (st_document st) = Some folder ->
  folder <> EmptyString ->
  get_info_file (st_document st) <> EmptyString ->
  save_doc (with_fields (st_document st)
              (cli_ctx_data (st_document st) set_data imported_data))
    (st_world st) = Returned w ->
  let result := cli_document describe fix_errors save_doc add_and_commit_resource
                  set_data imported_data importer_names false false st in
  result.1 = Returned tt /\
  st_document result.2
  = with_fields (st_document st) (cli_ctx_data (st_document st) set_data imported_data) /\
  st_world result.2 = w.
Proof.
  intros Hfolder Hne Hinfo Hsave.
  assert (Hctx : update (fields (st_document st))
                   (cli_ctx_data (st_document st) set_data imported_data)
                 = cli_ctx_data (st_document st) set_data imported_data).
  { apply map_eq. intros k. rewrite lookup_update, !lookup_cli_ctx_data.
    destruct (decide (k = "ref")); cbn;
      repeat (destruct (_ !! k); try reflexivity). }
  unfold cli_document, run. cbn [st_document st_world st_log].
  rewrite Hfolder.
  apply String.eqb_neq in Hne, Hinfo. rewrite Hne, Hinfo.
  cbn. unfold update in Hctx |- *. by rewrite Hctx, Hsave.
Qed.
End UpdateFacts.

(** X7: the keys of the data handed to [run] are those of the document,
    those of the overrides and those of the importers except ["ref"]:
    no field of the document is lost by the merge. *)
Theorem cli_ctx_data_dom (document : Document)
    (set_data imported_data : gmap string value) :
  dom (cli_ctx_data document set_data imported_data)
  = dom (fields document) ∪ dom set_data ∪ (dom imported_data ∖ {[ "ref" ]}).
Proof.
  apply set_eq. intros k.
  rewrite !elem_of_union, elem_of_difference, !elem_of_dom, lookup_cli_ctx_data.
  rewrite not_elem_of_singleton.
  destruct (decide (k = "ref")) as [->|Hne]; cbn;
    destruct (imported_data !! _), (set_data !! _), (fields document !! _);
    cbn; split; intros H; try (by eexists); try tauto;
    repeat match goal with
      | H : _ \/ _ |- _ => destruct H
      | H : _ /\ _ |- _ => destruct H
      | H : is_Some None |- _ => by destruct H
      end; try done; try (by eexists); eauto.
Qed.

(** ** [strip] *)

Lemma lstrip_first (s : string) (c : ascii) :
  first_char (lstrip s) = Some c -> py_isspace c = false.
Proof.
  induction s as [|a s IH]; cbn; [done|].
  destruct (py_isspace a) eqn:Ha; [exact IH|].
  cbn. by intros [= <-].
Qed.

Lemma lstrip_last (s : string) :
  lstrip s = EmptyString \/ last_char (lstrip s) = last_char s.
Proof.
  induction s as [|a s IH]; cbn; [by left|].
  destruct (py_isspace a); [|by right].
  destruct IH as [IH|IH]; [by left|].
  destruct s as [|b s]; [by left|right]. exact IH.
Qed.

Lemma last_char_cons (b : ascii) (s : string) : is_Some (last_char (String b s)).
Proof.
  revert b. induction s as [|d s IH]; intros b; [by eexists|]. apply (IH d).
Qed.

Lemma first_rev_app (s acc : string) :
  first_char (String.rev_app s acc) =
  match last_char s with
  | Some c => Some c
  | None => first_char acc
  end.
Proof.
  revert acc. induction s as [|a s IH]; intros acc; [done|].
  cbn [String.rev_app]. rewrite IH. destruct s as [|b s]; [done|].
  change (last_char (String a (String b s))) with (last_char (String b s)).
  by destruct (last_char_cons b s) as [d ->].
Qed.

Lemma last_rev_app (s acc : string) :
  last_char (String.rev_app s acc) =
  match last_char acc with
  | Some c => Some c
  | None => first_char s
  end.
Proof.
  revert acc. induction s as [|a s IH]; intros acc; cbn [String.rev_app].
  - by destruct (last_char acc).
  - rewrite IH. destruct acc as [|b acc]; [done|].
    change (last_char (String a (String b acc))) with (last_char (String b acc)).
    by destruct (last_char_cons b acc) as [d ->].
Qed.

Lemma strip_is_stripped (s : string) : is_stripped (strip s).
Proof.
  unfold strip, String.rev. split; intros c.
  - rewrite first_rev_app. cbn [first_char].
    destruct (last_char (lstrip _)) as [d|] eqn:Hlast; [|done].
    intros [= <-].
    destruct (lstrip_last (String.rev_app (lstrip s) EmptyString)) as [Hempty|Hsame].
    { by rewrite Hempty in Hlast. }
    rewrite Hsame, last_rev_app in Hlast. cbn [last_char] in Hlast.
    by eapply lstrip_first.
  - rewrite last_rev_app. cbn [last_char]. apply lstrip_first.
Qed.

(** ** More on key conversion *)

Section MoreConversionFacts.
Variable data : gmap string value.

Lemma rule_value_stripped fk c s :
  rule_value fk data c = VStr s -> is_stripped s.
Proof.
  unfold rule_value. intros Hv.
  repeat case_match; simplify_eq; apply strip_is_stripped.
Qed.

Lemma foldl_convert_one_lookup_Some fk l m log k v :
  (foldl (convert_one fk data) (m, log) l).1 !! k = Some v ->
  m !! k = Some v \/
  exists c, c ∈ l /\ papis_key_of fk c = k /\ rule_value fk data c = v /\ truthy v = true.
Proof.
  revert m log. induction l as [|c l IH]; intros m log; cbn [foldl]; [by left|].
  pose proof (convert_one_data data fk m log c) as Hone.
  destruct (convert_one fk data (m, log) c) as [m1 log1]. cbn in Hone. subst m1.
  intros [Hm|(c' & Hc' & H)]%IH.
  - destruct (truthy (rule_value fk data c)) eqn:Htruthy; [|by left].
    destruct (decide (papis_key_of fk c = k)) as [Hk|Hk].
    + rewrite Hk, lookup_insert_eq in Hm. injection Hm as <-.
      right. exists c. split_and!; [by left | done..].
    + rewrite lookup_insert_ne in Hm by done. by left.
  - right. exists c'. split; [by right | done].
Qed.

Lemma foldl_convert_pair_lookup_Some l m log k v :
  (foldl (convert_pair data) (m, log) l).1 !! k = Some v ->
  m !! k = Some v \/
  exists p c, p ∈ l /\ c ∈ conv_list p /\ is_Some (data !! foreign_key p) /\
              papis_key_of (foreign_key p) c = k /\
              rule_value (foreign_key p) data c = v /\ truthy v = true.
Proof.
  revert m log. induction l as [|p l IH]; intros m log; cbn [foldl]; [by left|].
  assert (Hone : forall v', (convert_pair data (m, log) p).1 !! k = Some v' ->
            m !! k = Some v' \/
            exists c, c ∈ conv_list p /\ is_Some (data !! foreign_key p) /\
                      papis_key_of (foreign_key p) c = k /\
                      rule_value (foreign_key p) data c = v' /\ truthy v' = true).
  { intros v'. unfold convert_pair.
    destruct (data !! foreign_key p) as [x|] eqn:Hx; [|by left].
    intros [Hm|(c & Hc & H)]%foldl_convert_one_lookup_Some; [by left|].
    right. exists c. split; [done|]. split; [by eexists | done]. }
  destruct (convert_pair data (m, log) p) as [m1 log1]. cbn in Hone.
  intros [Hm|(p' & c & Hp' & H)]%IH.
  - destruct (Hone v Hm) as [Hm'|(c & H)]; [by left|].
    right. exists p, c. split; [by left | done].
  - right. exists p', c. split; [by right | done].
Qed.

Lemma copy_unknown_keys_skip pre post p m :
  data !! foreign_key p = None ->
  copy_unknown_keys (pre ++ p :: post) data m = copy_unknown_keys (pre ++ post) data m.
Proof.
  intros Hp. apply map_eq. intros k. rewrite !lookup_copy_unknown_keys.
  destruct (decide (k = foreign_key p)) as [->|Hne].
  - rewrite Hp. by repeat case_decide.
  - assert (Hiff : k ∈ map foreign_key (pre ++ p :: post)
                   <-> k ∈ map foreign_key (pre ++ post)).
    { rewrite !map_app. cbn [map]. rewrite !elem_of_app, elem_of_cons. tauto. }
    repeat case_decide; tauto.
Qed.
End MoreConversionFacts.

Section MoreConversion.
Variable getstring : string -> outcome (option string).
Variable format_au : string -> value -> outcome string.

(** What the post-processing leaves of the converted data: every key
    but ["author"] under an ["author_list"]. *)
Lemma keyconversion_result_lookup conversions data keep res k :
  (keyconversion_to_data getstring format_au conversions data keep).1 = Returned res ->
  (k = "author" -> res !! "author_list" = None) ->
  res !! k = converted_data conversions data keep !! k.
Proof.
  rewrite keyconversion_to_data_fst. intros Hres Hauthor.
  destruct (converted_data conversions data keep !! "author_list") as [al|] eqn:Hal.
  - destruct (author_list_to_author _ _ _) as [author|e]; cbn in Hres; [|discriminate].
    injection Hres as <-.
    destruct (decide (k = "author")) as [Heq|Hne].
    + specialize (Hauthor Heq). rewrite lookup_insert_ne in Hauthor by done. congruence.
    + by rewrite lookup_insert_ne.
  - by injection Hres as <-.
Qed.

(** X9: without [keep_unknown_keys], every entry of the result (but an
    ["author"] made from an ["author_list"]) is the value of a rule
    under its target key, for a pair whose foreign key is in the data:
    only keys of the conversions are in the result. *)
Theorem keyconversion_only_rules conversions data res k v :
  (keyconversion_to_data getstring format_au conversions data false).1 = Returned res ->
  res !! k = Some v ->
  (k = "author" -> res !! "author_list" = None) ->
  exists p c, p ∈ conversions /\ c ∈ conv_list p /\
              is_Some (data !! foreign_key p) /\
              papis_key_of (foreign_key p) c = k /\
              v = rule_value (foreign_key p) data c.
Proof.
  intros Hres Hk Hauthor.
  rewrite (keyconversion_result_lookup _ _ _ _ _ Hres Hauthor) in Hk.
  unfold converted_data in Hk.
  apply foldl_convert_pair_lookup_Some in Hk as [Hk|(p & c & Hp & Hc & Hfk & Hkey & Hv & _)].
  - by rewrite lookup_empty in Hk.
  - by exists p, c.
Qed.

(** X10: without [keep_unknown_keys], no entry of the result (but an
    ["author"] made from an ["author_list"]) is falsy, and a string in
    the result neither starts nor ends with whitespace. *)
Theorem keyconversion_truthy_stripped conversions data res k v :
  (keyconversion_to_data getstring format_au conversions data false).1 = Returned res ->
  res !! k = Some v ->
  (k = "author" -> res !! "author_list" = None) ->
  truthy v = true /\ (forall s, v = VStr s -> is_stripped s).
Proof.
  intros Hres Hk Hauthor.
  rewrite (keyconversion_result_lookup _ _ _ _ _ Hres Hauthor) in Hk.
  unfold converted_data in Hk.
  apply foldl_convert_pair_lookup_Some in Hk as [Hk|(p & c & _ & _ & _ & _ & Hv & Htruthy)].
  - by rewrite lookup_empty in Hk.
  - split; [done|]. intros s ->. by eapply rule_value_stripped.
Qed.

(** X11: with [keep_unknown_keys], an entry of the data whose key is no
    foreign key of the conversions is in the result as it is in the
    data (falsy or not, stripped or not), also when a rule has that key
    as its target; an ["author"] under an ["author_list"] apart. *)
Theorem keyconversion_keeps_unknown conversions data res k v :
  (keyconversion_to_data getstring format_au conversions data true).1 = Returned res ->
  data !! k = Some v ->
  k ∉ map foreign_key conversions ->
  (k = "author" -> res !! "author_list" = None) ->
  res !! k = Some v.
Proof.
  intros Hres Hk Hfk Hauthor.
  rewrite (keyconversion_result_lookup _ _ _ _ _ Hres Hauthor).
  unfold converted_data. rewrite lookup_copy_unknown_keys.
  rewrite decide_False by done. by rewrite Hk.
Qed.

(** X12: a pair whose foreign key is not in the data has no effect: the
    conversion gives the same outcome and the same log as without the
    pair. *)
Theorem keyconversion_skips_absent pre post p data keep :
  data !! foreign_key p = None ->
  keyconversion_to_data getstring format_au (pre ++ p :: post) data keep
  = keyconversion_to_data getstring format_au (pre ++ post) data keep.
Proof.
  intros Hp. unfold keyconversion_to_data.
  assert (Hfold : foldl (convert_pair data) (∅, []) (pre ++ p :: post)
                  = foldl (convert_pair data) (∅, []) (pre ++ post)).
  { rewrite !foldl_app. cbn [foldl]. unfold convert_pair at 2. by rewrite Hp. }
  rewrite Hfold. destruct (foldl _ _ (pre ++ post)) as [new_data log].
  destruct keep; [|done]. by rewrite copy_unknown_keys_skip.
Qed.
End MoreConversion.

(** ** More on [sorted] *)

Section SortedMore.
Context {A : Type} (lt : A -> A -> bool).

Lemma insert_sorted_least (x : A) (l : list A) :
  Forall (fun y => lt y x = false) l -> insert_sorted lt x l = x :: l.
Proof.
  destruct l as [|y l]; [done|]. intros [Hy _]%Forall_cons. cbn. by rewrite Hy.
Qed.

Lemma stable_sort_of_sorted (l : list A) :
  StronglySorted (fun a b => lt b a = false) l -> stable_sort lt l = l.
Proof.
  induction 1 as [|x l Hl IH Hx]; [done|].
  cbn. rewrite IH. by apply insert_sorted_least.
Qed.

Hypothesis lt_asym : forall a b, lt a b = true -> lt b a = false.
Hypothesis le_trans :
  forall a b c, lt b a = false -> lt c b = false -> lt c a = false.

Lemma sorted_idempotent (r : bool) (l : list A) :
  sorted lt r (sorted lt r l) = sorted lt r l.
Proof.
  destruct r; cbn.
  - rewrite rev_involutive. f_equal.
    apply stable_sort_of_sorted. by apply stable_sort_sorted.
  - apply stable_sort_of_sorted. by apply stable_sort_sorted.
Qed.

(** A sorted list whose [P] items are above all others has them at its
    end. *)
Lemma sorted_partition (R : relation A) (P : A -> Prop) `{!forall x, Decision (P x)}
    (l : list A) :
  (forall x y, P x -> ~ P y -> ~ R x y) ->
  StronglySorted R l ->
  l = filter (fun x => ~ P x) l ++ filter P l.
Proof.
  intros HP. induction 1 as [|x l Hl IH Hx]; [done|].
  rewrite !filter_cons. destruct (decide (P x)) as [Hpx|Hpx].
  - rewrite decide_False by tauto.
    assert (Hall : Forall P l).
    { eapply Forall_impl; [exact Hx|]. intros y Hxy.
      destruct (decide (P y)) as [|Hy]; [done|]. by destruct (HP x y). }
    assert (Hnone : filter (fun x => ~ P x) l = []).
    { clear -Hall. induction Hall as [|y l Hy _ IHl]; [done|].
      rewrite filter_cons, decide_False by tauto. exact IHl. }
    assert (Hsame : filter P l = l).
    { clear -Hall. induction Hall as [|y l Hy _ IHl]; [done|].
      rewrite filter_cons, decide_True by done. by rewrite IHl. }
    by rewrite Hnone, Hsame.
  - rewrite decide_True by done. cbn. by rewrite <- IH.
Qed.

Lemma sorted_app_later (R : relation A) (l1 l2 : list A) (x y : A) :
  StronglySorted R (l1 ++ x :: l2) -> y ∈ l2 -> R x y.
Proof.
  intros Hs Hy. apply StronglySorted_app_1_r in Hs.
  apply StronglySorted_inv in Hs as [_ Hx].
  rewrite Forall_forall in Hx. by apply Hx.
Qed.
End SortedMore.

(** ** Integers as strings *)

Lemma parse_digits_acc (d : Decimal.uint) (p : positive) :
  parse_digits (NilEmpty.string_of_uint d) (Z.pos p) true
  = Some (Z.pos (Pos.of_uint_acc d p)).
Proof.
  revert p. induction d; intros p;
    cbn [NilEmpty.string_of_uint parse_digits Ascii.is_nat Pos.of_uint_acc];
    [done | rewrite <- IHd; f_equal; lia ..].
Qed.

Lemma parse_digits_uint (d : Decimal.uint) :
  parse_digits (NilEmpty.string_of_uint d) 0 true = Some (Z.of_N (Pos.of_uint d)).
Proof.
  induction d; cbn [NilEmpty.string_of_uint parse_digits Ascii.is_nat Pos.of_uint];
    [done | exact IHd | apply parse_digits_acc ..].
Qed.

Lemma string_app_nil (s : string) : s +:+ EmptyString = s.
Proof.
  induction s as [|c s IH]; [done|].
  change (String c s +:+ EmptyString) with (String c (s +:+ EmptyString)).
  by rewrite IH.
Qed.

Lemma rev_app_rev_app (s a b : string) :
  String.rev_app (String.rev_app s a) b = String.rev_app a (s +:+ b).
Proof.
  revert a b. induction s as [|c s IH]; intros a b; [done|].
  cbn [String.rev_app]. by rewrite IH.
Qed.

Lemma string_rev_involutive (s : string) : String.rev (String.rev s) = s.
Proof. unfold String.rev. rewrite rev_app_rev_app. cbn. apply string_app_nil. Qed.

Lemma lstrip_id (s : string) :
  (forall c, first_char s = Some c -> py_isspace c = false) -> lstrip s = s.
Proof.
  destruct s as [|c s]; [done|]. intros Hc. cbn. by rewrite (Hc c).
Qed.

Lemma strip_of_stripped (s : string) : is_stripped s -> strip s = s.
Proof.
  intros [Hfirst Hlast]. unfold strip. rewrite (lstrip_id s Hfirst).
  rewrite lstrip_id; [apply string_rev_involutive|].
  intros c. unfold String.rev. rewrite first_rev_app. cbn [first_char].
  destruct (last_char s) as [d|] eqn:Hd; [|done]. intros [= <-]. by apply Hlast.
Qed.

Lemma string_of_uint_last (d : Decimal.uint) (c : ascii) :
  last_char (NilEmpty.string_of_uint d) = Some c -> py_isspace c = false.
Proof.
  induction d; cbn [NilEmpty.string_of_uint]; [done|..];
    (destruct (NilEmpty.string_of_uint d) eqn:Hd; [by intros [= <-] | exact IHd]).
Qed.

Lemma string_of_uint_stripped (d : Decimal.uint) :
  is_stripped (NilEmpty.string_of_uint d).
Proof.
  split; [|apply string_of_uint_last].
  destruct d; cbn; intros c; try done; by intros [= <-].
Qed.

Lemma py_int_uint (d : Decimal.uint) :
  d <> Decimal.Nil ->
  py_int (NilEmpty.string_of_uint d) = Some (Z.of_N (Pos.of_uint d)) /\
  py_int (String "-" (NilEmpty.string_of_uint d)) = Some (- Z.of_N (Pos.of_uint d)).
Proof.
  intros Hd. unfold py_int. split.
  - rewrite (strip_of_stripped _ (string_of_uint_stripped d)).
    pose proof (parse_digits_uint d) as Hparse.
    destruct d; try done; cbn [NilEmpty.string_of_uint] in *; exact Hparse.
  - rewrite strip_of_stripped.
    + pose proof (parse_digits_uint d) as Hparse.
      destruct d; try done; cbn [NilEmpty.string_of_uint] in *;
        cbn [parse_digits Ascii.is_nat] in *; by rewrite Hparse.
    + split; intros c; [by intros [= <-]|].
      destruct (NilEmpty.string_of_uint d) eqn:Hs.
      * by destruct d.
      * change (last_char (String "-" (String a s))) with (last_char (String a s)).
        rewrite <- Hs. apply string_of_uint_last.
Qed.

Lemma py_int_str_of_Z_aux (z : Z) : py_int (str_of_Z z) = Some z.
Proof.
  unfold str_of_Z. destruct z as [|p|p]; [done|..]; cbn [Z.to_int NilZero.string_of_int].
  - assert (Hd : Pos.to_uint p <> Decimal.Nil).
    { intros Hnil. pose proof (DecimalPos.Unsigned.of_to p) as Hp.
      by rewrite Hnil in Hp. }
    destruct (py_int_uint _ Hd) as [Hpos _].
    rewrite DecimalPos.Unsigned.of_to in Hpos.
    unfold NilZero.string_of_uint. by destruct (Pos.to_uint p).
  - assert (Hd : Pos.to_uint p <> Decimal.Nil).
    { intros Hnil. pose proof (DecimalPos.Unsigned.of_to p) as Hp.
      by rewrite Hnil in Hp. }
    destruct (py_int_uint _ Hd) as [_ Hneg].
    rewrite DecimalPos.Unsigned.of_to in Hneg.
    unfold NilZero.string_of_uint. by destruct (Pos.to_uint p).
Qed.

(** [strip] is idempotent: a stripped string neither starts nor ends
    with whitespace, and such a string is left as it is. *)
Lemma strip_idempotent (s : string) :
  is_stripped (strip s) /\ strip (strip s) = strip s.
Proof.
  split; [apply strip_is_stripped|].
  apply strip_of_stripped, strip_is_stripped.
Qed.

(** ** More on sorting documents *)

Section SortMore.
Variable strptime : string -> string -> option datetime.
Variable epoch : datetime.
Variable key : string.

Local Abbreviation sort_key_of r := (document_sort_key strptime epoch key r).

Lemma document_sort_key_missing (r : bool) (d : Document) :
  is_none (get d key) = true ->
  sort_key_of r d = ((if r then -3 else 3), epoch, 0, EmptyString).
Proof.
  unfold document_sort_key, document_sort_fields, default_sort_key.
  destruct (get d key), r; done.
Qed.

Lemma document_sort_key_present (r : bool) (d : Document) :
  String.eqb key "time-added" = false ->
  is_none (get d key) = false ->
  exists p i s, (p = 1 \/ p = 2) /\
                sort_key_of r d = ((if r then - p else p), epoch, i, s).
Proof.
  intros Hkey. unfold document_sort_key, document_sort_fields, default_sort_key.
  rewrite Hkey.
  destruct (get d key) eqn:Hget; try done; intros _;
    match goal with
    | |- context [py_int ?s] => destruct (py_int s)
    end; cbn; eauto 10.
Qed.

Lemma document_sort_key_int (r : bool) (d : Document) (z : Z) :
  String.eqb key "time-added" = false ->
  get d key = VInt z ->
  sort_key_of r d = ((if r then -1 else 1), epoch, z, str_of_Z z).
Proof.
  intros Hkey Hget. unfold document_sort_key, document_sort_fields, default_sort_key.
  rewrite Hkey, Hget. cbn [str repr]. rewrite py_int_str_of_Z_aux. by destruct r.
Qed.

Lemma filter_Forall {A} (P : A -> Prop) `{!forall x, Decision (P x)} (l : list A) :
  Forall P l -> filter P l = l.
Proof.
  induction 1 as [|x l Hx _ IH]; [done|].
  by rewrite filter_cons, decide_True, IH.
Qed.

(** X15: for a key other than ["time-added"], the documents without
    the key (or with [None] under it) are at the end of the result, in
    their input order, for both values of [reverse]; the documents
    before them are those that have a value under the key. *)
Theorem sort_missing_last (docs : list Document) (r : bool) :
  String.eqb key "time-added" = false ->
  exists present,
    (sort strptime epoch docs key r).1
    = present ++ filter (fun d => is_none (get d key) = true) docs /\
    Forall (fun d => is_none (get d key) = false) present /\
    present ≡ₚ filter (fun d => ~ is_none (get d key) = true) docs.
Proof.
  intros Hkey.
  set (P := fun d : Document => is_none (get d key) = true).
  set (result := (sort strptime epoch docs key r).1).
  assert (Hstable : filter P result = filter P docs).
  { apply (sorted_filter
             (fun a b => tuple_lt (sort_key_of r a) (sort_key_of r b))).
    intros x y Hx Hy. unfold P in Hx, Hy.
    rewrite !document_sort_key_missing by done. apply tuple_lt_irrefl. }
  assert (Hsplit : result = filter (fun d => ~ P d) result ++ filter P result).
  { destruct r.
    - eapply (sorted_partition
                (fun a b => tuple_lt (sort_key_of true a) (sort_key_of true b) = false)).
      + intros x y Hx Hy. unfold P in Hx, Hy. apply not_true_is_false in Hy.
        destruct (document_sort_key_present true y Hkey Hy) as (p & i & s & Hp & ->).
        rewrite document_sort_key_missing by done.
        unfold tuple_lt. destruct Hp as [-> | ->]; done.
      + apply (sorted_reverse_sorted
                 (fun a b => tuple_lt (sort_key_of true a) (sort_key_of true b))).
        * intros a b. apply tuple_lt_asym.
        * intros a b c. apply tuple_le_trans.
    - eapply (sorted_partition
                (fun a b => tuple_lt (sort_key_of false b) (sort_key_of false a) = false)).
      + intros x y Hx Hy. unfold P in Hx, Hy. apply not_true_is_false in Hy.
        destruct (document_sort_key_present false y Hkey Hy) as (p & i & s & Hp & ->).
        rewrite document_sort_key_missing by done.
        unfold tuple_lt. destruct Hp as [-> | ->]; done.
      + apply sort_forward_sorted. }
  exists (filter (fun d => ~ P d) result). split_and!.
  - by rewrite <- Hstable.
  - apply Forall_forall. intros d [Hd _]%list_elem_of_filter.
    unfold P in Hd. by apply not_true_is_false.
  - unfold result. by rewrite sort_perm.
Qed.

(** X16: sorting by a key that no document has a value for gives the
    input list back, for both values of [reverse]. *)
Theorem sort_absent_key (docs : list Document) (r : bool) :
  Forall (fun d => is_none (get d key) = true) docs ->
  (sort strptime epoch docs key r).1 = docs.
Proof.
  intros Hall.
  set (k := ((if r then -3 else 3), epoch, 0, EmptyString) : sort_key).
  assert (Hdocs : Forall (fun d => sort_key_of r d = k) docs).
  { eapply Forall_impl; [exact Hall|]. intros d Hd.
    by apply document_sort_key_missing. }
  assert (Hresult : Forall (fun d => sort_key_of r d = k)
                      (sort strptime epoch docs key r).1).
  { by rewrite sort_perm. }
  rewrite <- (filter_Forall _ _ Hresult).
  rewrite sort_stable. by apply filter_Forall.
Qed.

(** X17: [sort] is idempotent: sorting a sorted list again, by the same
    key and in the same direction, changes nothing. *)
Theorem sort_idempotent (docs : list Document) (r : bool) :
  (sort strptime epoch (sort strptime epoch docs key r).1 key r).1
  = (sort strptime epoch docs key r).1.
Proof.
  apply (sorted_idempotent
           (fun a b => tuple_lt (sort_key_of r a) (sort_key_of r b))).
  - intros a b. apply tuple_lt_asym.
  - intros a b c. apply tuple_le_trans.
Qed.

(** X18: documents whose value under the key is an integer are ordered
    by that integer: whenever [x] is before [y] in the result, the
    integer of [x] is at most the one of [y] under [reverse=False], and
    at least that under [reverse=True]. *)
Theorem sort_ints_numeric (docs l1 l2 : list Document) (r : bool)
    (x y : Document) (a b : Z) :
  String.eqb key "time-added" = false ->
  (sort strptime epoch docs key r).1 = l1 ++ x :: l2 ->
  y ∈ l2 ->
  get x key = VInt a ->
  get y key = VInt b ->
  if r then b <= a else a <= b.
Proof.
  intros Hkey Hsplit Hy Hx Hb. destruct r.
  - pose proof (sorted_reverse_sorted
                  (fun a b => tuple_lt (sort_key_of true a) (sort_key_of true b))
                  (fun a b => tuple_lt_asym _ _) (fun a b c => tuple_le_trans _ _ _)
                  docs) as Hsorted.
    change (sorted _ true docs) with (sort strptime epoch docs key true).1 in Hsorted.
    rewrite Hsplit in Hsorted.
    pose proof (sorted_app_later _ _ _ _ _ Hsorted Hy) as Hlt. cbn beta in Hlt.
    rewrite (document_sort_key_int true x a), (document_sort_key_int true y b) in Hlt
      by done.
    unfold tuple_lt in Hlt. order_cases.
  - pose proof (sort_forward_sorted strptime epoch key docs) as Hsorted.
    rewrite Hsplit in Hsorted.
    pose proof (sorted_app_later _ _ _ _ _ Hsorted Hy) as Hlt. cbn beta in Hlt.
    rewrite (document_sort_key_int false x a), (document_sort_key_int false y b) in Hlt
      by done.
    unfold tuple_lt in Hlt. order_cases.
Qed.
End SortMore.

(** ** Escaping for HTML *)

Lemma replace_char_app (old : ascii) (new a b : string) :
  replace_char old new (a +:+ b) = replace_char old new a +:+ replace_char old new b.
Proof.
  induction a as [|c a IH]; [done|].
  change (String c a +:+ b) with (String c (a +:+ b)). cbn [replace_char].
  rewrite IH. destruct (Ascii.eqb c old); [by rewrite string_app_assoc | done].
Qed.

Lemma html_entity_one (c : ascii) :
  replace_char dquote "&quot;"
    (replace_char ">" "&gt;"
       (replace_char "<" "&lt;"
          (replace_char "&" "&amp;" (String c EmptyString))))
  = html_entity c.
Proof.
  unfold html_entity. cbn [replace_char].
  destruct (Ascii.eqb c "&") eqn:Hamp; [vm_compute; reflexivity|].
  cbn [replace_char]. destruct (Ascii.eqb c "<") eqn:Hlt; [vm_compute; reflexivity|].
  cbn [replace_char]. destruct (Ascii.eqb c ">") eqn:Hgt; [vm_compute; reflexivity|].
  cbn [replace_char]. by destruct (Ascii.eqb c dquote).
Qed.

(** The four replacements in a row are one pass over the string. *)
Lemma html_escape_one_pass (s : string) :
  replace_char dquote "&quot;"
    (replace_char ">" "&gt;"
       (replace_char "<" "&lt;" (replace_char "&" "&amp;" s)))
  = html_entities s.
Proof.
  induction s as [|c s IH]; [done|].
  change (String c s) with (String c EmptyString +:+ s).
  rewrite !replace_char_app, IH, html_entity_one. reflexivity.
Qed.

Lemma contains_char_app (c : ascii) (a b : string) :
  contains_char c (a +:+ b) = contains_char c a || contains_char c b.
Proof.
  induction a as [|d a IH]; [done|].
  change (String d a +:+ b) with (String d (a +:+ b)). cbn [contains_char].
  by rewrite IH, orb_assoc.
Qed.

Lemma html_entity_clean (c x : ascii) :
  c = "<"%char \/ c = ">"%char \/ c = dquote ->
  contains_char c (html_entity x) = false.
Proof.
  intros Hc. unfold html_entity.
  destruct (Ascii.eqb x "&") eqn:Hamp;
    [destruct Hc as [->|[->| ->]]; vm_compute; reflexivity|].
  destruct (Ascii.eqb x "<") eqn:Hlt;
    [destruct Hc as [->|[->| ->]]; vm_compute; reflexivity|].
  destruct (Ascii.eqb x ">") eqn:Hgt;
    [destruct Hc as [->|[->| ->]]; vm_compute; reflexivity|].
  destruct (Ascii.eqb x dquote) eqn:Hquot;
    [destruct Hc as [->|[->| ->]]; vm_compute; reflexivity|].
  cbn [contains_char]. rewrite orb_false_r.
  destruct Hc as [->|[->| ->]]; by rewrite Ascii.eqb_sym.
Qed.

Lemma html_entities_clean (c : ascii) (s : string) :
  c = "<"%char \/ c = ">"%char \/ c = dquote ->
  contains_char c (html_entities s) = false.
Proof.
  intros Hc. induction s as [|x s IH]; [done|].
  cbn [html_entities]. by rewrite contains_char_app, html_entity_clean, IH.
Qed.

Lemma html_entity_cases (x : ascii) :
  (x = "&"%char /\ html_entity x = "&amp;") \/
  (x = "<"%char /\ html_entity x = "&lt;") \/
  (x = ">"%char /\ html_entity x = "&gt;") \/
  (x = dquote /\ html_entity x = "&quot;") \/
  (x <> "&"%char /\ html_entity x = String x EmptyString).
Proof.
  unfold html_entity.
  destruct (Ascii.eqb_spec x "&") as [->|Hamp]; [by left|].
  destruct (Ascii.eqb_spec x "<") as [->|Hlt]; [by right; left|].
  destruct (Ascii.eqb_spec x ">") as [->|Hgt]; [by right; right; left|].
  destruct (Ascii.eqb_spec x dquote) as [->|Hquot]; [by right; right; right; left|].
  by right; right; right; right.
Qed.

Lemma html_entities_inj (s1 s2 : string) :
  html_entities s1 = html_entities s2 -> s1 = s2.
Proof.
  revert s2. induction s1 as [|x s1 IH]; intros [|y s2]; cbn [html_entities].
  - done.
  - destruct (html_entity_cases y) as [[_ ->]|[[_ ->]|[[_ ->]|[[_ ->]|[_ ->]]]]]; done.
  - destruct (html_entity_cases x) as [[_ ->]|[[_ ->]|[[_ ->]|[[_ ->]|[_ ->]]]]]; done.
  - destruct (html_entity_cases x) as [[-> ->]|[[-> ->]|[[-> ->]|[[-> ->]|[Hx ->]]]]];
      destruct (html_entity_cases y) as [[-> ->]|[[-> ->]|[[-> ->]|[[-> ->]|[Hy ->]]]]];
      intros Heq; try discriminate Heq;
      try (injection Heq as Heq; f_equal; by apply IH);
      try (injection Heq as Hc Heq; congruence);
      injection Heq as -> Heq; f_equal; by apply IH.
Qed.

(** X19: an escaped field holds none of the characters [<], [>] and the
    double quote, whatever the field holds. *)
Theorem html_escape_clean (doc : Document) (k : string) :
  contains_char "<" (DocHtmlEscaped_getitem doc k) = false /\
  contains_char ">" (DocHtmlEscaped_getitem doc k) = false /\
  contains_char dquote (DocHtmlEscaped_getitem doc k) = false.
Proof.
  unfold DocHtmlEscaped_getitem. rewrite html_escape_one_pass.
  split_and!; apply html_entities_clean; auto.
Qed.

(** X20: escaping loses nothing: two fields with the same escaped string
    have the same string; and a field that is not there escapes to the
    empty string. *)
Theorem html_escape_injective (doc1 doc2 : Document) (k1 k2 : string) :
  (DocHtmlEscaped_getitem doc1 k1 = DocHtmlEscaped_getitem doc2 k2 ->
   str (getitem doc1 k1) = str (getitem doc2 k2)) /\
  (fields doc1 !! k1 = None -> DocHtmlEscaped_getitem doc1 k1 = EmptyString).
Proof.
  unfold DocHtmlEscaped_getitem. rewrite !html_escape_one_pass. split.
  - apply html_entities_inj.
  - intros Hnone. unfold getitem. by rewrite Hnone.
Qed.

(** The doctest of [DocHtmlEscaped]. *)
Example html_escape_doctest :
  DocHtmlEscaped_getitem doc_markup "title"
  = "&gt; &gt;&lt; int &amp; &quot;&quot; &quot;".
Proof. vm_compute. reflexivity. Qed.


(** ** Instances of the further properties *)



Lemma run_without_data_witness :
  run example_describe id example_save_doc example_commit None false false
    (mkState (doc_in_folder {[ "title" := VStr "Hello World" ]}) (∅ : example_disk) [])
  = (Returned tt,
     mkState (doc_in_folder {[ "title" := VStr "Hello World" ]})
       ({[ "/lib/doc/info.yaml" := Returned {[ "title" := VStr "Hello World" ]} ]}
          : example_disk) []).
Proof.
  apply (run_without_data example_describe id example_save_doc example_commit
           (mkState (doc_in_folder {[ "title" := VStr "Hello World" ]})
              (∅ : example_disk) [])
           "/lib/doc");
    [reflexivity | discriminate | discriminate | reflexivity].
Defined.

Lemma cli_document_applies_witness :
  fields (st_document
    (cli_document example_describe id example_save_doc example_commit
       {[ "tags" := VStr "b" ]} {[ "tags" := VStr "c"; "ref" := VStr "X" ]}
       ["crossref"] false false
       (mkState (doc_in_folder {[ "tags" := VStr "a"; "ref" := VStr "Own2020" ]})
          (∅ : example_disk) [])).2)
  = {[ "tags" := VStr "c"; "ref" := VStr "Own2020" ]}.
Proof.
  destruct (cli_document_applies example_describe id example_save_doc example_commit
              {[ "tags" := VStr "b" ]} {[ "tags" := VStr "c"; "ref" := VStr "X" ]}
              ["crossref"]
              (mkState (doc_in_folder {[ "tags" := VStr "a"; "ref" := VStr "Own2020" ]})
                 (∅ : example_disk) [])
              "/lib/doc"
              ({[ "/lib/doc/info.yaml" :=
                    Returned {[ "tags" := VStr "c"; "ref" := VStr "Own2020" ]} ]}
                 : example_disk))
    as (_ & Hdoc & _); [reflexivity | discriminate | discriminate | reflexivity |].
  rewrite Hdoc. reflexivity.
Defined.

Lemma keyconversion_only_rules_witness :
  exists p c, p ∈ year_conversions /\ c ∈ conv_list p /\
              is_Some (year_foreign_data !! foreign_key p) /\
              papis_key_of (foreign_key p) c = "year" /\
              VStr "2020" = rule_value (foreign_key p) year_foreign_data c.
Proof.
  apply (keyconversion_only_rules default_getstring format_au_fields
           year_conversions year_foreign_data {[ "year" := VStr "2020" ]}
           "year" (VStr "2020"));
    [vm_compute; reflexivity | reflexivity | discriminate].
Defined.

Lemma keyconversion_truthy_stripped_witness :
  truthy (VStr "2020") = true /\ (forall s, VStr "2020" = VStr s -> is_stripped s).
Proof.
  apply (keyconversion_truthy_stripped default_getstring format_au_fields
           year_conversions year_foreign_data {[ "year" := VStr "2020" ]}
           "year" (VStr "2020"));
    [vm_compute; reflexivity | reflexivity | discriminate].
Defined.

Lemma keyconversion_keeps_unknown_witness :
  ({[ "note" := VStr " kept " ]} : gmap string value) !! "note" = Some (VStr " kept ").
Proof.
  apply (keyconversion_keeps_unknown default_getstring format_au_fields
           year_conversions
           {[ "name" := VStr "S. Author"; "note" := VStr " kept " ]}
           {[ "note" := VStr " kept " ]} "note" (VStr " kept "));
    [vm_compute; reflexivity | reflexivity | | discriminate].
  intros [Hin|[Hin|Hin%elem_of_nil]%elem_of_cons]%elem_of_cons; done.
Defined.

Lemma keyconversion_skips_absent_witness :
  keyconversion_to_data default_getstring format_au_fields
    ([] ++ mkKeyConversionPair "year" [EmptyKeyConversion]
        :: [mkKeyConversionPair "name" [EmptyKeyConversion]])
    {[ "name" := VStr "S. Author" ]} true
  = keyconversion_to_data default_getstring format_au_fields
      ([] ++ [mkKeyConversionPair "name" [EmptyKeyConversion]])
      {[ "name" := VStr "S. Author" ]} true.
Proof.
  apply (keyconversion_skips_absent default_getstring format_au_fields
           [] [mkKeyConversionPair "name" [EmptyKeyConversion]]
           (mkKeyConversionPair "year" [EmptyKeyConversion])
           {[ "name" := VStr "S. Author" ]} true).
  reflexivity.
Defined.

Lemma sort_missing_last_witness :
  exists present,
    (sort example_strptime example_epoch [doc_2020; doc_untitled; doc_1999] "year" true).1
    = present ++ filter (fun d => is_none (get d "year") = true)
                   [doc_2020; doc_untitled; doc_1999] /\
    Forall (fun d => is_none (get d "year") = false) present /\
    present ≡ₚ filter (fun d => ~ is_none (get d "year") = true)
                 [doc_2020; doc_untitled; doc_1999].
Proof.
  apply (sort_missing_last example_strptime example_epoch "year"
           [doc_2020; doc_untitled; doc_1999] true).
  reflexivity.
Defined.

Lemma sort_absent_key_witness :
  (sort example_strptime example_epoch [doc_2020; doc_1999; doc_7] "title" true).1
  = [doc_2020; doc_1999; doc_7].
Proof.
  apply (sort_absent_key example_strptime example_epoch "title"
           [doc_2020; doc_1999; doc_7] true).
  repeat constructor.
Defined.

Lemma sort_ints_numeric_witness :
  (sort example_strptime example_epoch [doc_2020; doc_untitled; doc_7] "year" false).1
  = [] ++ doc_7 :: [doc_2020; doc_untitled] /\
  7 <= 2020.
Proof.
  assert (Hsplit : (sort example_strptime example_epoch
                      [doc_2020; doc_untitled; doc_7] "year" false).1
                   = [] ++ doc_7 :: [doc_2020; doc_untitled])
    by (vm_compute; reflexivity).
  split; [exact Hsplit|].
  apply (sort_ints_numeric example_strptime example_epoch "year"
           [doc_2020; doc_untitled; doc_7] [] [doc_2020; doc_untitled] false
           doc_7 doc_2020 7 2020);
    [reflexivity | exact Hsplit | by left | reflexivity | reflexivity].
Defined.

Lemma html_escape_injective_witness :
  fields doc_untitled !! "year" = None /\
  DocHtmlEscaped_getitem doc_untitled "year" = EmptyString.
Proof.
  split; [reflexivity|].
  apply (proj2 (html_escape_injective doc_untitled doc_untitled "year" "year")).
  reflexivity.
Defined.
